(** * Nautilus wallet: transaction construction core

    A shallow embedding of

    - [src/chains/ergo/transaction/txBuilder.ts]: the payment and
      cancellation builders, the fee resolver and the selection/change
      configuration;
    - the [OutputInterpreter] class (display decoding of an output box);
    - [AddressesDbService] (address lookups over the Dexie tables).

    Amounts at the protocol boundary are integers ([Z]); [BigNumber]
    values are exact decimals and are modelled by rationals ([Q]).
    Exceptions are modelled by the [Result] type, asynchronous collaborator
    calls by the outcome they settle with. *)

From Stdlib Require Import ZArith QArith Qpower Lia Lqa Ascii String.
From stdpp Require Import base option list gmap strings sorting.

Local Open Scope Z_scope.

(** ** Exceptions *)

Inductive Result (A : Type) : Type :=
| Ok (a : A)
| Throw (msg : string).
Arguments Ok {A} a.
Arguments Throw {A} msg.

#[export] Instance Result_ret : MRet Result := λ A a, Ok a.

#[export] Instance Result_bind : MBind Result := λ A B k r,
  match r with
  | Ok a => k a
  | Throw m => Throw m
  end.

(** * Database services *)

Module Db.

Inductive AddressState := Used | Unused.

#[export] Instance AddressState_eq_dec : EqDecision AddressState.
Proof. solve_decision. Defined.

Record IDbAddress := {
  a_script : string;
  a_index : Z;
  a_state : AddressState;
  a_walletId : Z
}.

Record WalletSettings := {
  avoidAddressReuse : bool;
  hideUsedAddresses : bool;
  defaultChangeIndex : Z
}.

Record IDbWallet := {
  w_id : Z;
  w_settings : WalletSettings
}.

(** The two Dexie tables the service reads.  A table is listed in
    primary-key order ([script] for addresses, [id] for wallets). *)
Record dbContext := {
  wallets : list IDbWallet;
  addresses : list IDbAddress
}.

(** [Collection.first()] *)
Definition first {A} (l : list A) : option A := head l.

(** [Table.orderBy("index")]: ascending by [index]; records with equal
    index stay in primary-key order. *)
Fixpoint insert_by_index (a : IDbAddress) (l : list IDbAddress) : list IDbAddress :=
  match l with
  | [] => [a]
  | b :: l' =>
      if a_index a <=? a_index b then a :: b :: l'
      else b :: insert_by_index a l'
  end.

Definition orderBy_index (t : list IDbAddress) : list IDbAddress :=
  foldr insert_by_index [] t.

(** [walletsDbService.getById] *)
Definition getById (db : dbContext) (id : Z) : option IDbWallet :=
  first (filter (λ w, w_id w = id) (wallets db)).

Inductive Mode := strict | loose.

Definition ownershipError : string :=
  "One or more selected addresses are not associated with the connected wallet.".

(** [AddressesDbService.getByWalletIdAndScripts] *)
Definition getByWalletIdAndScripts
    (db : dbContext) (walletId : Z) (scripts : list string) (mode : Mode)
  : Result (list IDbAddress) :=
  let result :=
    filter (λ a, a_walletId a = walletId)
      (filter (λ a, a_script a ∈ scripts) (addresses db)) in
  match mode with
  | strict =>
      if decide (length result ≠ length scripts)
      then Throw ownershipError
      else Ok result
  | loose => Ok result
  end.

(** [AddressesDbService._getChangeAddress] *)
Definition _getChangeAddress (db : dbContext) (wallet : IDbWallet) : option IDbAddress :=
  if avoidAddressReuse (w_settings wallet) then
    first (filter (λ a, a_walletId a = w_id wallet ∧ a_state a = Unused)
             (orderBy_index (addresses db)))
  else
    first (filter (λ a, a_walletId a = w_id wallet
                        ∧ a_index a = defaultChangeIndex (w_settings wallet))
             (addresses db)).

(** [AddressesDbService.getChangeAddress] *)
Definition getChangeAddress (db : dbContext) (walletId : Z) : option IDbAddress :=
  match getById db walletId with
  | None => None
  | Some wallet =>
      match _getChangeAddress db wallet with
      | None =>
          first (filter (λ a, a_walletId a = walletId)
                   (orderBy_index (addresses db)))
      | Some address => Some address
      end
  end.

(** [a] has the lowest index among the addresses of [l] that satisfy [P]. *)
Definition lowest_index (P : IDbAddress → Prop) (l : list IDbAddress) (a : IDbAddress) : Prop :=
  a ∈ l ∧ P a ∧ ∀ b, b ∈ l → P b → a_index a ≤ a_index b.

Definition by_index : relation IDbAddress := λ a b, a_index a ≤ a_index b.

(** The addresses of [walletId] that a rule of the precedence accepts. *)
Definition owned (walletId : Z) : IDbAddress → Prop := λ a, a_walletId a = walletId.
Definition unused (walletId : Z) : IDbAddress → Prop :=
  λ a, a_walletId a = walletId ∧ a_state a = Unused.
Definition at_default (wallet : IDbWallet) : IDbAddress → Prop :=
  λ a, a_walletId a = w_id wallet ∧ a_index a = defaultChangeIndex (w_settings wallet).

(** The rule the wallet's settings pick resolves to no address. *)
Definition unresolved (db : dbContext) (wallet : IDbWallet) : Prop :=
  if avoidAddressReuse (w_settings wallet)
  then ¬ ∃ a, a ∈ addresses db ∧ unused (w_id wallet) a
  else ¬ ∃ a, a ∈ addresses db ∧ at_default wallet a.

End Db.

(** * Amounts *)

(** A [BigNumber] is an exact decimal; its finite values are rationals. *)
Definition BigNumber := Q.

Definition bn (z : Z) : BigNumber := inject_Z z.

(** Modelled from the spec: [decimalize] and [undecimalize] of
    [@/common/bigNumber] are not under src/.  Display amounts are converted
    by dividing, respectively multiplying, by [10^scale]; without a scale
    the value is unchanged. *)
Definition decimalize (value : BigNumber) (decimals : option Z) : BigNumber :=
  match decimals with
  | Some d => (value / 10 ^ d)%Q
  | None => value
  end.

Definition undecimalize (value : BigNumber) (decimals : option Z) : BigNumber :=
  match decimals with
  | Some d => (value * 10 ^ d)%Q
  | None => value
  end.

Definition Qlt_bool (a b : Q) : bool := negb (Qle_bool b a).

(** A JavaScript [number] as the interpreter meets it: an integer or [NaN]. *)
Inductive JsNumber := NaN | Num (z : Z).

Definition truthy (n : option JsNumber) : option Z :=
  match n with
  | Some (Num z) => if decide (z = 0) then None else Some z
  | _ => None
  end.

(** What is thrown: an [Error(message)] of this code base, the
    [SyntaxError] of [BigInt(text)] on text that is not an integer, an
    error of the SDK, or the rejection of a collaborator's promise. *)
Definition connectInputs : string :=
  "Unable to fetch inputs, please check your connection.".
Definition connectHeight : string :=
  "Unable to fetch current height, please check your connection.".
Definition noLiquidity : string :=
  "There is not enough liquidity in the Babel Boxes for the selected fee asset in the selected price range.".
Definition notAnInteger : string := "SyntaxError: Cannot convert to a BigInt".
Definition duplicateInput : string := "DuplicateInputError".
Definition insufficientInputs : string := "InsufficientInputs".

(** [BigInt(value.toString())] *)
Definition toBigInt (v : BigNumber) : Result Z :=
  let r := Qred v in
  if decide (Qden r = 1%positive) then Ok (Qnum r) else Throw notAnInteger.

(** The outcome of an awaited collaborator call. *)
Inductive Settled (A : Type) : Type :=
| Fulfilled (a : A)
| Rejected (reason : string).
Arguments Fulfilled {A} a.
Arguments Rejected {A} reason.

(** * Boxes *)

Record Token := {
  tokenId : string;
  amount : Z
}.

(** An unspent output, also an [EIP12UnsignedInput]. *)
Record Box := {
  boxId : string;
  value : Z;
  ergoTree : string;
  creationHeight : Z;
  assets : list Token;
  additionalRegisters : gmap string string
}.

(** [ErgoBoxCandidate]: an output, which has no identifier yet. *)
Record ErgoBoxCandidate := {
  c_value : Z;
  c_ergoTree : string;
  c_assets : list Token;
  c_additionalRegisters : gmap string string
}.

Inductive WalletType := Standard | ReadOnly | Ledger.

#[export] Instance WalletType_eq_dec : EqDecision WalletType.
Proof. solve_decision. Defined.

Record BasicAssetMetadata := {
  md_name : option string;
  md_decimals : option Z
}.

Record FeeSettings := {
  fee_tokenId : string;
  fee_value : BigNumber;
  fee_nanoErgsPerToken : option BigNumber;
  fee_assetInfo : option BasicAssetMetadata;
  fee_box : option Box
}.

(** [@/constants/ergo], whose values are not under src/. *)
Class ErgoConstants := {
  ERG_TOKEN_ID : string;
  ERG_DECIMALS : Z;
  MIN_BOX_VALUE : Z;
  SAFE_MIN_FEE_VALUE : Z
}.

Definition SAFE_MAX_CHANGE_TOKEN_LIMIT : Z := 100.

(** * The transaction builder of the SDK

    [TransactionBuilder] is an object of [@fleet-sdk/core]; the record below
    holds what the calls of [txBuilder.ts] leave in it. *)

Record OutputBuilder := {
  o_value : Z;
  o_recipient : string;
  o_tokens : list Token
}.

Inductive SelectionStrategy := CherryPickSelectionStrategy.

Inductive InputOrder := creationHeight_asc.

(** [None] is the SDK's default. *)
Record BuilderSettings := {
  maxTokensPerChangeBox : option Z;
  isolateErgOnChange : bool
}.

Record SelectorSettings := {
  strategy : option SelectionStrategy;
  ordering : option InputOrder
}.

Inductive FleetPlugin :=
| BabelSwapPlugin (box : Box) (token : string) (amount : BigNumber).

Record TransactionBuilder := {
  tb_creationHeight : Z;
  tb_inputs : list Box;
  tb_ensureInclusion : gset string;
  tb_outputs : list OutputBuilder;
  tb_feeAmount : option Z;
  tb_changeAddress : option string;
  tb_settings : BuilderSettings;
  tb_selector : SelectorSettings;
  tb_plugins : list FleetPlugin
}.

(** The unsigned draft.  On the wire its output list is the payment
    outputs, then the fee output, then the change outputs. *)
Record EIP12UnsignedTransaction := {
  tx_inputs : list Box;
  tx_payments : list OutputBuilder;
  tx_fee : option Z;
  tx_change : list ErgoBoxCandidate
}.

(** A decoded register constant: [SColl[SByte]] data is a byte array,
    the data of [SByte], [SShort] and [SInt] is a [number], that of
    [SLong] and [SBigInt] a [bigint]; for any other type only what
    [Number(data)] yields matters here. *)
Inductive SConstant :=
| SCollSByte (bytes : list Byte.byte)
| SNumber (n : Z)
| SBig (n : Z)
| SOther (asNumber : JsNumber).

(** What [txBuilder.ts] imports from the SDK and from the key pool, and
    cannot be read from src/. *)
Class Sdk := {
  (** [isValidBabelContract] of the babel-fees plugin *)
  isValidBabelContract : string → bool;
  (** [SConstant.from]; [None] when it throws *)
  SConstant_from : string → option SConstant;
  (** [utf8.encode]: the text of a byte array *)
  utf8_encode : list Byte.byte → string;
  (** the picks of the configured selection strategy among the inputs that
      are not pinned, for a target of native value and tokens; [None] when
      the inputs do not cover the target *)
  selectInputs : SelectorSettings → list Box → list Box → Z → list Token → option (list Box);
  (** the change outputs for the selected inputs, or an error *)
  changeBoxes : BuilderSettings → option string → list Box → list OutputBuilder → Z
                → Result (list ErgoBoxCandidate);
  (** [hdKeyPool.get(publicKey).deriveAddress(index).script] *)
  deriveAddress : string → Z → string
}.

(** Modelled from the spec: [../babelFees] is not under src/.  A swap box
    "exposes a reserve ratio / exchange rate"; the rate and the validity
    check of a candidate box are left open. *)
Class BabelFees := {
  getNanoErgsPerTokenRate : Box → BigNumber;
  isValidBabelBox : Box → bool
}.

Definition new_TransactionBuilder (height : Z) : TransactionBuilder :=
  {| tb_creationHeight := height;
     tb_inputs := [];
     tb_ensureInclusion := ∅;
     tb_outputs := [];
     tb_feeAmount := None;
     tb_changeAddress := None;
     tb_settings := {| maxTokensPerChangeBox := None; isolateErgOnChange := false |};
     tb_selector := {| strategy := None; ordering := None |};
     tb_plugins := [] |}.

(** The input collection refuses a box identifier it already holds. *)
Fixpoint add_inputs (new old : list Box) : Result (list Box) :=
  match new with
  | [] => Ok old
  | b :: new' =>
      if decide (boxId b ∈ (boxId <$> old)) then Throw duplicateInput
      else add_inputs new' (old ++ [b])
  end.

(** [builder.from(inputs, { ensureInclusion })] *)
Definition from (inputs : list Box) (ensureInclusion : bool) (b : TransactionBuilder)
  : Result TransactionBuilder :=
  all ← add_inputs inputs (tb_inputs b);
  Ok {| tb_creationHeight := tb_creationHeight b;
        tb_inputs := all;
        tb_ensureInclusion :=
          if ensureInclusion
          then tb_ensureInclusion b ∪ list_to_set (boxId <$> inputs)
          else tb_ensureInclusion b;
        tb_outputs := tb_outputs b;
        tb_feeAmount := tb_feeAmount b;
        tb_changeAddress := tb_changeAddress b;
        tb_settings := tb_settings b;
        tb_selector := tb_selector b;
        tb_plugins := tb_plugins b |}.

(** [builder.to(output)] *)
Definition to (o : OutputBuilder) (b : TransactionBuilder) : TransactionBuilder :=
  {| tb_creationHeight := tb_creationHeight b;
     tb_inputs := tb_inputs b;
     tb_ensureInclusion := tb_ensureInclusion b;
     tb_outputs := tb_outputs b ++ [o];
     tb_feeAmount := tb_feeAmount b;
     tb_changeAddress := tb_changeAddress b;
     tb_settings := tb_settings b;
     tb_selector := tb_selector b;
     tb_plugins := tb_plugins b |}.

(** [builder.payFee(amount.toString())] *)
Definition payFee (amount : BigNumber) (b : TransactionBuilder) : Result TransactionBuilder :=
  fee ← toBigInt amount;
  Ok {| tb_creationHeight := tb_creationHeight b;
        tb_inputs := tb_inputs b;
        tb_ensureInclusion := tb_ensureInclusion b;
        tb_outputs := tb_outputs b;
        tb_feeAmount := Some fee;
        tb_changeAddress := tb_changeAddress b;
        tb_settings := tb_settings b;
        tb_selector := tb_selector b;
        tb_plugins := tb_plugins b |}.

(** [builder.sendChangeTo(address)] *)
Definition sendChangeTo (address : string) (b : TransactionBuilder) : TransactionBuilder :=
  {| tb_creationHeight := tb_creationHeight b;
     tb_inputs := tb_inputs b;
     tb_ensureInclusion := tb_ensureInclusion b;
     tb_outputs := tb_outputs b;
     tb_feeAmount := tb_feeAmount b;
     tb_changeAddress := Some address;
     tb_settings := tb_settings b;
     tb_selector := tb_selector b;
     tb_plugins := tb_plugins b |}.

(** [builder.configure(f)] *)
Definition configure (f : BuilderSettings → BuilderSettings) (b : TransactionBuilder)
  : TransactionBuilder :=
  {| tb_creationHeight := tb_creationHeight b;
     tb_inputs := tb_inputs b;
     tb_ensureInclusion := tb_ensureInclusion b;
     tb_outputs := tb_outputs b;
     tb_feeAmount := tb_feeAmount b;
     tb_changeAddress := tb_changeAddress b;
     tb_settings := f (tb_settings b);
     tb_selector := tb_selector b;
     tb_plugins := tb_plugins b |}.

(** [builder.configureSelector(f)] *)
Definition configureSelector (f : SelectorSettings → SelectorSettings) (b : TransactionBuilder)
  : TransactionBuilder :=
  {| tb_creationHeight := tb_creationHeight b;
     tb_inputs := tb_inputs b;
     tb_ensureInclusion := tb_ensureInclusion b;
     tb_outputs := tb_outputs b;
     tb_feeAmount := tb_feeAmount b;
     tb_changeAddress := tb_changeAddress b;
     tb_settings := tb_settings b;
     tb_selector := f (tb_selector b);
     tb_plugins := tb_plugins b |}.

(** [builder.extend(plugin)] *)
Definition extend (p : FleetPlugin) (b : TransactionBuilder) : TransactionBuilder :=
  {| tb_creationHeight := tb_creationHeight b;
     tb_inputs := tb_inputs b;
     tb_ensureInclusion := tb_ensureInclusion b;
     tb_outputs := tb_outputs b;
     tb_feeAmount := tb_feeAmount b;
     tb_changeAddress := tb_changeAddress b;
     tb_settings := tb_settings b;
     tb_selector := tb_selector b;
     tb_plugins := tb_plugins b ++ [p] |}.

Definition setMaxTokensPerChangeBox (n : Z) (s : BuilderSettings) : BuilderSettings :=
  {| maxTokensPerChangeBox := Some n; isolateErgOnChange := isolateErgOnChange s |}.

Definition set_isolateErgOnChange (s : BuilderSettings) : BuilderSettings :=
  {| maxTokensPerChangeBox := maxTokensPerChangeBox s; isolateErgOnChange := true |}.

Definition defineStrategy (st : SelectionStrategy) (s : SelectorSettings) : SelectorSettings :=
  {| strategy := Some st; ordering := ordering s |}.

Definition orderBy (o : InputOrder) (s : SelectorSettings) : SelectorSettings :=
  {| strategy := strategy s; ordering := Some o |}.

(** [builder.outputs.sum().nanoErgs] *)
Definition outputs_nanoErgs (os : list OutputBuilder) : Z :=
  foldr (λ o acc, o_value o + acc) 0 os.

(** [array.find(p)] *)
Definition js_find {A} (P : A → Prop) `{∀ x, Decision (P x)} (l : list A) : option A :=
  head (filter P l).

(** The amount of [token] a box holds, [0] when it holds none. *)
Definition held (token : string) (b : Box) : Z :=
  default 0 (amount <$> js_find (λ t, tokenId t = token) (assets b)).

(** Modelled from the spec: the swap plugin of the SDK is not under src/.
    It adds "extra input = swap box, extra output = updated swap box
    reflecting the trade": the output keeps the script, pays out the traded
    native value and takes the fee tokens. *)
Definition runPlugin `{B : BabelFees} (p : FleetPlugin) : Result (Box * OutputBuilder) :=
  match p with
  | BabelSwapPlugin box token amount =>
      units ← toBigInt amount;
      nanoErgs ← toBigInt (amount * getNanoErgsPerTokenRate box)%Q;
      Ok (box, {| o_value := value box - nanoErgs;
                  o_recipient := ergoTree box;
                  o_tokens := [{| tokenId := token; amount := held token box + units |}] |})
  end.

(** Modelled from the spec: [TransactionBuilder.build] of the SDK is not
    under src/.  The inputs marked as must-include and the inputs of the
    plugins are pinned; the selection strategy only adds to them; the draft
    carries the requested outputs, the fee and the change. *)
Definition build `{S : Sdk} `{B : BabelFees} (b : TransactionBuilder)
  : Result EIP12UnsignedTransaction :=
  ios ← mapM runPlugin (tb_plugins b);
  let outputs := tb_outputs b ++ ios.*2 in
  let pinned := filter (λ i, boxId i ∈ tb_ensureInclusion b) (tb_inputs b) ++ ios.*1 in
  let unselected := filter (λ i, boxId i ∉ tb_ensureInclusion b) (tb_inputs b) in
  let fee := default 0 (tb_feeAmount b) in
  match selectInputs (tb_selector b) unselected pinned
          (outputs_nanoErgs outputs + fee) (outputs ≫= o_tokens) with
  | None => Throw insufficientInputs
  | Some picks =>
      change ← changeBoxes (tb_settings b) (tb_changeAddress b) (pinned ++ picks) outputs fee;
      Ok {| tx_inputs := pinned ++ picks;
            tx_payments := outputs;
            tx_fee := tb_feeAmount b;
            tx_change := change |}
  end.

(** * txBuilder.ts *)

(** The wallet store, the application settings and the network
    collaborators that the module reaches through globals. *)
Record WalletStore := {
  ws_id : Z;
  ws_type : WalletType;
  ws_publicKey : string;
  ws_changeAddressIndex : option Z
}.

Record Env := {
  wallet : WalletStore;
  zeroConf : bool;
  fetchBoxes : Z → bool → Settled (list Box);
  getHeight : Settled (option Z);
  fetchBabelBoxes : list string → option BigNumber → Settled (list Box)
}.

Record Context := {
  inputs : list Box;
  currentHeight : Z
}.

(** [Promise.all] of two calls: it fulfils when both do and rejects when
    one does.  When both reject, the reason kept is that of the first
    argument. *)
Definition Promise_all {A B} (a : Settled A) (b : Settled B) : Result (A * B) :=
  match a, b with
  | Fulfilled x, Fulfilled y => Ok (x, y)
  | Rejected r, _ => Throw r
  | Fulfilled _, Rejected r => Throw r
  end.

Definition getContext (env : Env) : Result Context :=
  r ← Promise_all (fetchBoxes env (ws_id (wallet env)) (zeroConf env)) (getHeight env);
  match r.1 with
  | [] => Throw connectInputs
  | _ :: _ =>
      match r.2 with
      | None => Throw connectHeight
      | Some h =>
          if decide (h = 0) then Throw connectHeight
          else Ok {| inputs := r.1; currentHeight := h |}
      end
  end.

Definition safeGetChangeAddress `{S : Sdk} (env : Env) : string :=
  let index := default 0 (ws_changeAddressIndex (wallet env)) in
  deriveAddress (ws_publicKey (wallet env)) index.

Definition setSelectionAndChangeStrategy (builder : TransactionBuilder) (walletType : WalletType)
  : TransactionBuilder :=
  if decide (walletType = Ledger) then
    configureSelector (defineStrategy CherryPickSelectionStrategy)
      (configure (λ settings, setMaxTokensPerChangeBox 1 (set_isolateErgOnChange settings))
         builder)
  else
    configureSelector (orderBy creationHeight_asc)
      (configure (setMaxTokensPerChangeBox SAFE_MAX_CHANGE_TOKEN_LIMIT) builder).

(** Modelled from the spec: [selectBestBabelBox] of [../babelFees] is not
    under src/.  It selects "the swap box with the best available rate
    among candidates that have enough reserve to cover the requested
    fee-asset amount". *)
Definition qualifies `{B : BabelFees} (tokenUnits : BigNumber) (box : Box) : Prop :=
  isValidBabelBox box = true
  ∧ Qle_bool (tokenUnits * getNanoErgsPerTokenRate box) (bn (value box)) = true.

#[export] Instance qualifies_dec `{B : BabelFees} u b : Decision (qualifies u b).
Proof. unfold qualifies. apply _. Defined.

Definition best_rate `{B : BabelFees} (b : Box) (best : option Box) : option Box :=
  match best with
  | None => Some b
  | Some c =>
      if Qlt_bool (getNanoErgsPerTokenRate b) (getNanoErgsPerTokenRate c)
      then Some c else Some b
  end.

Definition selectBestBabelBox `{B : BabelFees} (boxes : list Box) (tokenUnits : BigNumber)
  : option Box :=
  foldr best_rate None (filter (qualifies tokenUnits) boxes).

Definition set_box (fee : FeeSettings) (b : Box) : FeeSettings :=
  {| fee_tokenId := fee_tokenId fee;
     fee_value := fee_value fee;
     fee_nanoErgsPerToken := fee_nanoErgsPerToken fee;
     fee_assetInfo := fee_assetInfo fee;
     fee_box := Some b |}.

(** The builder and the fee settings are objects that [setFee] mutates:
    the result gives how the call ends and the state both are left in. *)
Record FeeOutcome := {
  ended : Result ();
  builder_after : TransactionBuilder;
  fee_after : FeeSettings
}.

Definition payFee_end (amount : BigNumber) (builder : TransactionBuilder) (fee : FeeSettings)
  : FeeOutcome :=
  match payFee amount builder with
  | Ok b => {| ended := Ok (); builder_after := b; fee_after := fee |}
  | Throw m => {| ended := Throw m; builder_after := builder; fee_after := fee |}
  end.

Definition setFee `{K : ErgoConstants} `{B : BabelFees} (env : Env)
    (builder : TransactionBuilder) (fee : FeeSettings) : FeeOutcome :=
  let isBabelFee := bool_decide (fee_tokenId fee ≠ ERG_TOKEN_ID) in
  let feeNanoErgs := undecimalize (fee_value fee) (Some ERG_DECIMALS) in
  let sendingNanoErgs := bn (outputs_nanoErgs (tb_outputs builder)) in
  if isBabelFee then
    let tokenUnits := undecimalize (fee_value fee) (fee_assetInfo fee ≫= md_decimals) in
    match fetchBabelBoxes env [fee_tokenId fee] (fee_nanoErgsPerToken fee) with
    | Rejected r => {| ended := Throw r; builder_after := builder; fee_after := fee |}
    | Fulfilled boxes =>
        match selectBestBabelBox boxes tokenUnits with
        | None => {| ended := Throw noLiquidity; builder_after := builder; fee_after := fee |}
        | Some selectedBox =>
            let fee := set_box fee selectedBox in
            let feeNanoErgs := (tokenUnits * getNanoErgsPerTokenRate selectedBox)%Q in
            let '(sendingNanoErgs, feeNanoErgs) :=
              if Qlt_bool 0 sendingNanoErgs
                 && Qle_bool sendingNanoErgs (bn MIN_BOX_VALUE)
                 && Qle_bool sendingNanoErgs (feeNanoErgs - bn SAFE_MIN_FEE_VALUE)
              then let sendingNanoErgs := bn MIN_BOX_VALUE in
                   (sendingNanoErgs, (feeNanoErgs - sendingNanoErgs)%Q)
              else (sendingNanoErgs, feeNanoErgs) in
            let builder :=
              extend (BabelSwapPlugin selectedBox (fee_tokenId fee) tokenUnits) builder in
            payFee_end feeNanoErgs builder fee
        end
    end
  else payFee_end feeNanoErgs builder fee.


Record StateAsset := {
  sa_tokenId : string;
  sa_metadata : option BasicAssetMetadata
}.

Record TxAssetAmount := {
  asset : StateAsset;
  ta_amount : option BigNumber
}.

Definition getSendingNanoErgs `{K : ErgoConstants} (assets : list TxAssetAmount) : BigNumber :=
  match js_find (λ a, sa_tokenId (asset a) = ERG_TOKEN_ID) assets with
  | Some erg =>
      match ta_amount erg with
      | Some amount => undecimalize amount (Some ERG_DECIMALS)
      | None => bn 0
      end
  | None => bn 0
  end.

(** The token entries of the payment output. *)
Definition sending_token `{K : ErgoConstants} (a : TxAssetAmount) : Prop :=
  sa_tokenId (asset a) ≠ ERG_TOKEN_ID
  ∧ ∃ amount, ta_amount a = Some amount ∧ Qeq_bool amount 0 = false.

#[export] Instance sending_token_dec `{K : ErgoConstants} a : Decision (sending_token a).
Proof.
  unfold sending_token. destruct (ta_amount a) as [q|].
  - destruct (decide (sa_tokenId (asset a) ≠ ERG_TOKEN_ID)) as [Hn|Hn].
    + destruct (Qeq_bool q 0) eqn:E.
      * right. intros [_ [x [[= <-] Hx]]]. congruence.
      * left. eauto.
    + right. tauto.
  - right. intros [_ [x [[=] _]]].
Defined.

Definition to_token (token : TxAssetAmount) : Result Token :=
  amount ← toBigInt
    (undecimalize (default (bn 0) (ta_amount token))
       (sa_metadata (asset token) ≫= md_decimals));
  Ok {| tokenId := sa_tokenId (asset token); amount := amount |}.

(** [createP2PTransaction] up to its last line: the builder [unsigned] as
    it stands before [build], and the fee settings the call leaves. *)
Definition createP2PTransaction_unsigned `{K : ErgoConstants} `{S : Sdk} `{B : BabelFees} (env : Env)
    (recipientAddress : string) (assets : list TxAssetAmount)
    (fee : FeeSettings) (walletType : WalletType)
  : Result TransactionBuilder * FeeSettings :=
  let prepared :=
    ctx ← getContext env;
    let isBabelFee := bool_decide (fee_tokenId fee ≠ ERG_TOKEN_ID) in
    let sendingNanoErgs := getSendingNanoErgs assets in
    unsigned ← from (inputs ctx) false (new_TransactionBuilder (currentHeight ctx));
    nanoErgs ← (if Qeq_bool sendingNanoErgs 0 && isBabelFee
                then Ok MIN_BOX_VALUE else toBigInt sendingNanoErgs);
    tokens ← mapM to_token (filter sending_token assets);
    Ok (sendChangeTo (safeGetChangeAddress env)
          (to {| o_value := nanoErgs; o_recipient := recipientAddress; o_tokens := tokens |}
             unsigned)) in
  match prepared with
  | Throw m => (Throw m, fee)
  | Ok unsigned =>
      let out := setFee env unsigned fee in
      (_ ← ended out;
       Ok (setSelectionAndChangeStrategy (builder_after out) walletType),
       fee_after out)
  end.

Definition createP2PTransaction `{K : ErgoConstants} `{S : Sdk} `{B : BabelFees} (env : Env)
    (recipientAddress : string) (assets : list TxAssetAmount)
    (fee : FeeSettings) (walletType : WalletType)
  : Result EIP12UnsignedTransaction * FeeSettings :=
  let r := createP2PTransaction_unsigned env recipientAddress assets fee walletType in
  (unsigned ← r.1; build unsigned, r.2).

Record UnconfirmedTransactionSummary := {
  ownInputs : list Box;
  ut_fee : BigNumber
}.

(** [createRBFCancellationTransaction] up to its last line. *)
Definition createRBFCancellationTransaction_unsigned `{K : ErgoConstants} `{S : Sdk} (env : Env)
    (unconfirmedTx : UnconfirmedTransactionSummary) : Result TransactionBuilder :=
  ctx ← getContext env;
  let ownBoxIds : gset string := list_to_set (boxId <$> ownInputs unconfirmedTx) in
  unsigned ← from (ownInputs unconfirmedTx) true (new_TransactionBuilder (currentHeight ctx));
  unsigned ← from (filter (λ input, boxId input ∉ ownBoxIds) (inputs ctx)) false unsigned;
  unsigned ← payFee
    (undecimalize (ut_fee unconfirmedTx) (Some ERG_DECIMALS) + bn SAFE_MIN_FEE_VALUE)%Q
    unsigned;
  let unsigned := sendChangeTo (safeGetChangeAddress env) unsigned in
  Ok (setSelectionAndChangeStrategy unsigned (ws_type (wallet env))).

Definition createRBFCancellationTransaction `{K : ErgoConstants} `{S : Sdk} `{B : BabelFees} (env : Env)
    (unconfirmedTx : UnconfirmedTransactionSummary) : Result EIP12UnsignedTransaction :=
  unsigned ← createRBFCancellationTransaction_unsigned env unconfirmedTx;
  build unsigned.

(** * The output interpreter *)

Record OutputAsset := {
  oa_tokenId : string;
  oa_name : option string;
  oa_amount : BigNumber;
  oa_decimals : option JsNumber;
  oa_description : option string;
  (** [minting?: boolean]: [false] stands for an absent flag *)
  oa_minting : bool
}.

(** [parseInt(text, 10)] on ASCII text: leading white space, an optional
    sign, then the longest run of decimal digits; [NaN] without a digit. *)
Definition is_space (a : ascii) : bool :=
  bool_decide (nat_of_ascii a ∈ [32; 9; 10; 11; 12; 13]%nat).

Definition digit_of (a : ascii) : option Z :=
  let n := Z.of_nat (nat_of_ascii a) in
  if (48 <=? n) && (n <=? 57) then Some (n - 48) else None.

Fixpoint skip_spaces (s : string) : string :=
  match s with
  | String a s' => if is_space a then skip_spaces s' else s
  | EmptyString => s
  end.

Fixpoint digits (s : string) (acc : option Z) : option Z :=
  match s with
  | String a s' =>
      match digit_of a with
      | Some d => digits s' (Some (10 * default 0 acc + d))
      | None => acc
      end
  | EmptyString => acc
  end.

Definition parseInt (text : string) : JsNumber :=
  let s := skip_spaces text in
  let '(negative, s) :=
    match s with
    | String "-" s' => (true, s')
    | String "+" s' => (false, s')
    | _ => (false, s)
    end in
  match digits s None with
  | Some n => Num (if negative : bool then - n else n)
  | None => NaN
  end.

(** [decode] of the serializer: nothing for an absent value and for a
    value that does not parse. *)
Definition decode `{S : Sdk} (value : option string) : option SConstant :=
  value ≫= SConstant_from.

Definition decodeUtf8 `{S : Sdk} (value : option string) : option string :=
  match decode value with
  | Some (SCollSByte bytes) => Some (utf8_encode bytes)
  | _ => None
  end.

Definition decodeDecimals `{S : Sdk} (value : option string) : option JsNumber :=
  match decode value with
  | None => None
  | Some (SCollSByte bytes) => Some (parseInt (utf8_encode bytes))
  | Some (SNumber n) => Some (Num n)
  | Some (SBig n) => Some (Num n)
  | Some (SOther n) => Some n
  end.

Definition getMintingToken `{S : Sdk} (box : ErgoBoxCandidate) (inputs : list Box)
  : option OutputAsset :=
  match boxId <$> head inputs with
  | None => None
  | Some firstInputId =>
      if decide (firstInputId = EmptyString) then None
      else
        match js_find (λ b, tokenId b = firstInputId) (c_assets box) with
        | None => None
        | Some token =>
            if decide (c_additionalRegisters box = ∅) then
              Some {| oa_tokenId := tokenId token;
                      oa_name := None;
                      oa_amount := bn (amount token);
                      oa_decimals := None;
                      oa_description := None;
                      oa_minting := false |}
            else
              let decimals := decodeDecimals (c_additionalRegisters box !! "R6") in
              Some {| oa_tokenId := tokenId token;
                      oa_name :=
                        Some (default EmptyString (decodeUtf8 (c_additionalRegisters box !! "R4")));
                      oa_decimals := decimals;
                      oa_amount :=
                        match truthy decimals with
                        | Some d => decimalize (bn (amount token)) (Some d)
                        | None => bn (amount token)
                        end;
                      oa_description :=
                        Some (default EmptyString (decodeUtf8 (c_additionalRegisters box !! "R5")));
                      oa_minting := true |}
        end
  end.

Definition erg_asset `{K : ErgoConstants} (amount : BigNumber) : OutputAsset :=
  {| oa_tokenId := ERG_TOKEN_ID;
     oa_name := Some "ERG";
     oa_amount := amount;
     oa_decimals := None;
     oa_description := None;
     oa_minting := false |}.

Definition sending_asset (metadata : gmap string BasicAssetMetadata) (t : Token) : OutputAsset :=
  {| oa_tokenId := tokenId t;
     oa_name := metadata !! tokenId t ≫= md_name;
     oa_amount :=
       match truthy (Num <$> (metadata !! tokenId t ≫= md_decimals)) with
       | Some d => decimalize (bn (amount t)) (Some d)
       | None => bn (amount t)
       end;
     oa_decimals := None;
     oa_description := None;
     oa_minting := false |}.

Definition buildSendingAssetsList `{K : ErgoConstants} `{S : Sdk}
    (box : ErgoBoxCandidate) (inputs : list Box) (metadata : gmap string BasicAssetMetadata)
  : list OutputAsset :=
  let assets := [erg_asset (decimalize (bn (c_value box)) (Some ERG_DECIMALS))] in
  match c_assets box with
  | [] => assets
  | _ :: _ =>
      let tokens := sending_asset metadata <$> c_assets box in
      let tokens :=
        match getMintingToken box inputs with
        | Some minting =>
            match list_find (λ t, oa_tokenId t = oa_tokenId minting) tokens with
            | Some (index, _) => <[index := minting]> tokens
            | None => tokens
            end
        | None => tokens
        end in
      assets ++ tokens
  end.

Definition swap_asset (metadata : gmap string BasicAssetMetadata) (input : Box) (token : Token)
  : OutputAsset :=
  let inputValue :=
    default 0 (amount <$> js_find (λ asset, tokenId asset = tokenId token) (assets input)) in
  {| oa_tokenId := tokenId token;
     oa_name := metadata !! tokenId token ≫= md_name;
     oa_amount :=
       decimalize (bn (amount token) - bn inputValue)%Q
         (Some (default 0 (metadata !! tokenId token ≫= md_decimals)));
     oa_decimals := None;
     oa_description := None;
     oa_minting := false |}.

Definition buildBabelSwapAssetsList `{K : ErgoConstants} `{S : Sdk}
    (box : ErgoBoxCandidate) (inputs : list Box) (metadata : gmap string BasicAssetMetadata)
  : list OutputAsset :=
  match js_find (λ input, ergoTree input = c_ergoTree box) inputs with
  | None => buildSendingAssetsList box inputs metadata
  | Some input =>
      (swap_asset metadata input <$> c_assets box)
      ++ [erg_asset (decimalize (bn (value input) - bn (c_value box))%Q (Some ERG_DECIMALS))]
  end.

Definition isBabelBoxSwap `{S : Sdk} (box : ErgoBoxCandidate) (inputs : list Box) : bool :=
  isValidBabelContract (c_ergoTree box)
  && bool_decide (is_Some (js_find (λ input, ergoTree input = c_ergoTree box) inputs)).

Record OutputInterpreter := {
  _box : ErgoBoxCandidate;
  _inputs : list Box;
  _metadata : gmap string BasicAssetMetadata;
  _addresses : option (list string);
  _assets : list OutputAsset
}.

(** The constructor. *)
Definition new_OutputInterpreter `{K : ErgoConstants} `{S : Sdk}
    (boxCandidate : ErgoBoxCandidate) (inputs : list Box)
    (metadata : gmap string BasicAssetMetadata) (addresses : option (list string))
  : OutputInterpreter :=
  {| _box := boxCandidate;
     _inputs := inputs;
     _metadata := metadata;
     _addresses := addresses;
     _assets :=
       if isBabelBoxSwap boxCandidate inputs
       then buildBabelSwapAssetsList boxCandidate inputs metadata
       else buildSendingAssetsList boxCandidate inputs metadata |}.

Definition isMinting (o : OutputInterpreter) : bool :=
  bool_decide (is_Some (js_find (λ a, oa_minting a = true) (_assets o))).

(** * Sample data *)

Module Sample.

Definition addr (s : string) (i : Z) (st : Db.AddressState) (w : Z) : Db.IDbAddress :=
  {| Db.a_script := s; Db.a_index := i; Db.a_state := st; Db.a_walletId := w |}.

Definition wallet_rec (i : Z) (avoid : bool) (change : Z) : Db.IDbWallet :=
  {| Db.w_id := i;
     Db.w_settings :=
       {| Db.avoidAddressReuse := avoid;
          Db.hideUsedAddresses := false;
          Db.defaultChangeIndex := change |} |}.

(** Wallet 1 avoids address reuse, wallet 2 sends change to index 1,
    wallet 3 points to an index it does not own. *)
Definition db : Db.dbContext :=
  {| Db.wallets := [wallet_rec 1 true 0; wallet_rec 2 false 1; wallet_rec 3 false 7];
     Db.addresses :=
       [addr "9a" 2 Db.Unused 1; addr "9b" 0 Db.Used 1; addr "9c" 1 Db.Unused 1;
        addr "9d" 0 Db.Used 2; addr "9e" 1 Db.Used 2;
        addr "9f" 4 Db.Used 3; addr "9g" 3 Db.Used 3] |}.

Definition constants : ErgoConstants :=
  {| ERG_TOKEN_ID := "0000000000000000000000000000000000000000000000000000000000000000";
     ERG_DECIMALS := 9;
     MIN_BOX_VALUE := 1000000;
     SAFE_MIN_FEE_VALUE := 1100000 |}.

(** Three serialized constants: the byte strings "Token" and "2", and
    the integer 2. *)
Definition registers (hex : string) : option SConstant :=
  if decide (hex = "0e05546f6b656e")
  then Some (SCollSByte (list_byte_of_string "Token"))
  else if decide (hex = "0e0132") then Some (SCollSByte (list_byte_of_string "2"))
  else if decide (hex = "0404") then Some (SNumber 2)
  else None.

(** A selector that takes every input offered, and a single change box
    without tokens. *)
Definition sdk : Sdk :=
  {| isValidBabelContract := λ tree, bool_decide (tree = "babel");
     SConstant_from := registers;
     utf8_encode := string_of_list_byte;
     selectInputs := λ _ unselected _ _ _, Some unselected;
     changeBoxes := λ _ address selected outputs fee,
       Ok [{| c_value :=
                foldr (λ i acc, value i + acc) 0 selected - outputs_nanoErgs outputs - fee;
              c_ergoTree := default EmptyString address;
              c_assets := [];
              c_additionalRegisters := ∅ |}];
     deriveAddress := λ publicKey index, publicKey |}.

(** Swap boxes that all trade at 50000 native units per token. *)
Definition babelFees : BabelFees :=
  {| getNanoErgsPerTokenRate := λ _, bn 50000;
     isValidBabelBox := λ b, bool_decide (ergoTree b = "babel") |}.

Definition box (id : string) (v : Z) (tree : string) (tokens : list Token) : Box :=
  {| boxId := id; value := v; ergoTree := tree; creationHeight := 1000;
     assets := tokens; additionalRegisters := ∅ |}.

Definition swapBox : Box :=
  box "b0" 2000000000 "babel" [{| tokenId := "B"; amount := 1000 |}].

Definition env : Env :=
  {| wallet :=
       {| ws_id := 1; ws_type := Standard; ws_publicKey := "9a";
          ws_changeAddressIndex := None |};
     zeroConf := false;
     fetchBoxes := λ _ _, Fulfilled [box "i1" 500000000 "p2pk" []; box "i2" 100000 "p2pk" []];
     getHeight := Fulfilled (Some 1200);
     fetchBabelBoxes := λ _ _, Fulfilled [swapBox] |}.


Definition feeErg : FeeSettings :=
  {| fee_tokenId := "0000000000000000000000000000000000000000000000000000000000000000";
     fee_value := 11 # 10000;
     fee_nanoErgsPerToken := None;
     fee_assetInfo := None;
     fee_box := None |}.

Definition erg (v : BigNumber) : TxAssetAmount :=
  {| asset :=
       {| sa_tokenId := "0000000000000000000000000000000000000000000000000000000000000000";
          sa_metadata := None |};
     ta_amount := Some v |}.



Definition cancelled : UnconfirmedTransactionSummary :=
  {| ownInputs := [box "i2" 100000 "p2pk" []]; ut_fee := 11 # 10000 |}.

(** The swap box after a settlement: 900 of B and 2005000000 native
    units, where the input held 1000 of B and 2000000000. *)
Definition settled : ErgoBoxCandidate :=
  {| c_value := 2005000000;
     c_ergoTree := "babel";
     c_assets := [{| tokenId := "B"; amount := 900 |}];
     c_additionalRegisters := ∅ |}.

(** An output that mints 12345 units of the token named after input [i1],
    with name "Token" and decimals "2". *)
Definition minted : ErgoBoxCandidate :=
  {| c_value := 1000000;
     c_ergoTree := "p2pk";
     c_assets := [{| tokenId := "i1"; amount := 12345 |}];
     c_additionalRegisters := {[ "R4" := "0e05546f6b656e"; "R6" := "0e0132" ]} |}.

End Sample.


From Stdlib Require Import Qround.

(** * More of the database services *)

Module DbMore.
Import Db.

(** [AddressesDbService.getByScript] *)
Definition getByScript (db : dbContext) (script : string) : option IDbAddress :=
  first (filter (λ a, a_script a = script) (addresses db)).

(** [AddressesDbService.getByWalletId]: [sortBy("index")] sorts the array
    of matches and keeps the order of records with equal index. *)
Definition getByWalletId (db : dbContext) (walletId : Z) : list IDbAddress :=
  orderBy_index (filter (λ a, a_walletId a = walletId) (addresses db)).

(** [AddressesDbService.getByState] *)
Definition getByState (db : dbContext) (walletId : Z) (state : AddressState)
  : list IDbAddress :=
  filter (λ a, a_walletId a = walletId ∧ a_state a = state)
    (orderBy_index (addresses db)).

(** The order of primary keys. *)
Definition key_lt (s1 s2 : string) : Prop := String.compare s1 s2 = Lt.

(** The address table holds its records in the order of their scripts,
    one record for a script. *)
Definition key_sorted (t : list IDbAddress) : Prop :=
  StronglySorted (λ a b, key_lt (a_script a) (a_script b)) t.

(** [Table.put] on the address table: the record replaces the one stored
    under its script, or is added at the place of its key. *)
Fixpoint table_put (a : IDbAddress) (t : list IDbAddress) : list IDbAddress :=
  match t with
  | [] => [a]
  | b :: t' =>
      match String.compare (a_script a) (a_script b) with
      | Eq => a :: t'
      | Lt => a :: b :: t'
      | Gt => b :: table_put a t'
      end
  end.

(** [AddressesDbService.put]: the new tables and the key it resolves to. *)
Definition put (db : dbContext) (address : IDbAddress) : dbContext * string :=
  ({| wallets := wallets db; addresses := table_put address (addresses db) |},
   a_script address).

(** [AddressesDbService.bulkPut] *)
Definition bulkPut (db : dbContext) (addresses : list IDbAddress) : dbContext :=
  match addresses with
  | [] => db
  | _ :: _ => foldl (λ d a, (put d a).1) db addresses
  end.

(** The tables that hold rows of a wallet, with the fields their indexes
    name. *)
Record IDbAsset := {
  as_tokenId : string;
  as_address : string;
  as_walletId : Z;
  as_name : option string;
  as_decimals : option Z
}.

Record IDbDAppConnection := {
  dc_origin : string;
  dc_walletId : Z
}.

Record IDbUtxo := {
  u_id : string;
  u_walletId : Z
}.

Record Tables := {
  core : dbContext;
  assets : list IDbAsset;
  connectedDApps : list IDbDAppConnection;
  utxos : list IDbUtxo
}.

(** [WalletsDbService.delete] *)
Definition delete (db : Tables) (walletId : Z) : Tables :=
  {| core :=
       {| wallets := filter (λ w, w_id w ≠ walletId) (wallets (core db));
          addresses := filter (λ a, a_walletId a ≠ walletId) (addresses (core db)) |};
     assets := filter (λ a, as_walletId a ≠ walletId) (assets db);
     connectedDApps := filter (λ c, dc_walletId c ≠ walletId) (connectedDApps db);
     utxos := filter (λ u, u_walletId u ≠ walletId) (utxos db) |}.

(** [WalletsDbService.getAll] *)
Definition getAll (db : dbContext) : list IDbWallet := wallets db.

End DbMore.

(** * The fee selector

    The script of the component that lets the user pick the fee asset and
    a multiplier, and emits the [FeeSettings] that [setFee] reads.  Its
    reactive values are the fields of [State]; a computed value is a
    function of the state. *)

Module FeeConfig.

(** [BigNumber.div] rounds the quotient to [DECIMAL_PLACES] decimals in the
    rounding mode configured, neither of which can be read from src/:
    whatever the mode, the result lies between the two neighbours of the
    quotient on that grid. *)
Class BigNumberDiv := {
  DECIMAL_PLACES : nat;
  div : BigNumber → BigNumber → BigNumber;
  div_rounds : ∀ a b, ¬ (b == 0)%Q →
    let scale := inject_Z (10 ^ Z.of_nat DECIMAL_PLACES) in
    (inject_Z (Qfloor (a / b * scale)) <= div a b * scale)%Q
    ∧ (div a b * scale <= inject_Z (Qceiling (a / b * scale)))%Q
}.

(** [integerValue(BigNumber.ROUND_UP)]: away from zero. *)
Definition integerValue_ROUND_UP (q : BigNumber) : BigNumber :=
  bn (if Qle_bool 0 q then Qceiling q else Qfloor q).

Record FeeAsset := {
  fa_tokenId : string;
  fa_metadata : option BasicAssetMetadata;
  fa_nanoErgsPerToken : BigNumber
}.

Record State := {
  intSelected : FeeAsset;
  multiplier : Z;
  cachedMinRequired : BigNumber;
  (** [v$.$dirty] *)
  dirty : bool;
  (** the [includeMinAmountPerBox] property *)
  includeMinAmountPerBox : Z
}.

Definition BN_MIN_ERG_FEE `{K : ErgoConstants} : BigNumber := bn SAFE_MIN_FEE_VALUE.
Definition BN_MIN_BOX_VAL `{K : ErgoConstants} : BigNumber := bn MIN_BOX_VALUE.

Definition getTokenUnitsFor `{D : BigNumberDiv} (st : State) (nanoErgs : BigNumber)
  : BigNumber :=
  if Qeq_bool nanoErgs 0 || Qeq_bool (fa_nanoErgsPerToken (intSelected st)) 0
  then bn 0
  else integerValue_ROUND_UP (div nanoErgs (fa_nanoErgsPerToken (intSelected st))).

Definition minTokenFee `{K : ErgoConstants} `{D : BigNumberDiv} (st : State) : BigNumber :=
  getTokenUnitsFor st BN_MIN_ERG_FEE.

Definition nanoErgsFee `{K : ErgoConstants} (st : State) : BigNumber :=
  (BN_MIN_ERG_FEE * inject_Z (multiplier st))%Q.

Definition tokenUnitsFee `{K : ErgoConstants} `{D : BigNumberDiv} (st : State) : BigNumber :=
  (minTokenFee st * inject_Z (multiplier st))%Q.

Definition feeAmount `{K : ErgoConstants} `{D : BigNumberDiv} (st : State) : BigNumber :=
  let value :=
    if decide (fa_tokenId (intSelected st) = ERG_TOKEN_ID)
    then nanoErgsFee st else tokenUnitsFee st in
  decimalize value (Some (default 0 (fa_metadata (intSelected st) ≫= md_decimals))).

(** The payload of [emitSelected]. *)
Definition emitSelected `{K : ErgoConstants} `{D : BigNumberDiv} (st : State) : FeeSettings :=
  {| fee_tokenId := fa_tokenId (intSelected st);
     fee_value := feeAmount st;
     fee_nanoErgsPerToken := Some (fa_nanoErgsPerToken (intSelected st));
     fee_assetInfo := fa_metadata (intSelected st);
     fee_box := None |}.

Definition set_multiplier (m : Z) (st : State) : State :=
  {| intSelected := intSelected st;
     multiplier := m;
     cachedMinRequired := cachedMinRequired st;
     dirty := dirty st;
     includeMinAmountPerBox := includeMinAmountPerBox st |}.

Definition set_cachedMinRequired (c : BigNumber) (st : State) : State :=
  {| intSelected := intSelected st;
     multiplier := multiplier st;
     cachedMinRequired := c;
     dirty := dirty st;
     includeMinAmountPerBox := includeMinAmountPerBox st |}.

Definition recalculateMinRequired `{K : ErgoConstants} `{D : BigNumberDiv} (st : State)
  : State :=
  if decide (fa_tokenId (intSelected st) = ERG_TOKEN_ID) then
    let st := set_cachedMinRequired (decimalize BN_MIN_ERG_FEE (Some ERG_DECIMALS)) st in
    if dirty st then st else set_multiplier 1 st
  else
    let st :=
      set_cachedMinRequired
        (decimalize
           (getTokenUnitsFor st
              (BN_MIN_ERG_FEE + BN_MIN_BOX_VAL * inject_Z (includeMinAmountPerBox st))%Q)
           (Some (default 0 (fa_metadata (intSelected st) ≫= md_decimals))))
        st in
    if Qlt_bool (feeAmount st) (cachedMinRequired st) then
      let m := integerValue_ROUND_UP (div (cachedMinRequired st) (feeAmount st)) in
      set_multiplier (if Qlt_bool 10 m then 10 else Qfloor m) st
    else st.

End FeeConfig.

(** * The asset pricing service *)

Module Pricing.

(** JavaScript numbers that are not whole: the type is left open, with the
    operations [getRates] applies to it. *)
Class JsFloat := {
  number : Type;
  (** the number [1] *)
  one : number;
  (** whether [!n] holds: [0] and [NaN] *)
  falsy : number → bool;
  (** [BigNumber.toNumber] *)
  toNumber : BigNumber → number;
  (** [value.times(n)], with [n] possibly undefined *)
  times : BigNumber → option number → BigNumber
}.

Record AssetRate `{F : JsFloat} := {
  erg : number;
  fiat : option number
}.

Definition token_rate `{F : JsFloat} (ergFiatRate : option number) (value : BigNumber)
  : AssetRate :=
  {| erg := toNumber value; fiat := Some (toNumber (times value ergFiatRate)) |}.

Definition is_falsy `{F : JsFloat} (n : option number) : bool :=
  match n with
  | Some x => falsy x
  | None => true
  end.

(** [AssetPricingService.getRates], from what the two services answer:
    the price of the native asset and the token rates, either of which may
    be undefined.  The token rates are the entries the loop visits, in its
    order. *)
Definition getRates `{K : ErgoConstants} `{F : JsFloat}
    (getPrice : Settled (option number))
    (getRatesByLiquidity : Settled (option (list (string * BigNumber))))
  : Result (option (gmap string AssetRate)) :=
  r ← Promise_all getPrice getRatesByLiquidity;
  let ergFiatRate := r.1 in
  let tokenRates := r.2 in
  if is_falsy ergFiatRate && bool_decide (tokenRates = None) then Ok None
  else
    let rates : gmap string AssetRate :=
      {[ ERG_TOKEN_ID := {| erg := one; fiat := ergFiatRate |} ]} in
    match tokenRates with
    | None => Ok (Some rates)
    | Some tokenRates =>
        Ok (Some (foldl (λ rates kv, <[kv.1 := token_rate ergFiatRate kv.2]> rates)
                    rates tokenRates))
    end.

End Pricing.

(** * The asset information table *)

Module AssetInfoDb.

Record IAssetInfo := {
  ai_id : string;
  ai_mintingBoxId : string;
  ai_decimals : option Z;
  ai_name : option string
}.

(** [uniqBy(items, key)]: the first item of each key, in the order of
    first occurrence. *)
Fixpoint uniqBy_from {A} (key : A → string) (seen : gset string) (items : list A) : list A :=
  match items with
  | [] => []
  | x :: items' =>
      if decide (key x ∈ seen) then uniqBy_from key seen items'
      else x :: uniqBy_from key ({[key x]} ∪ seen) items'
  end.

Definition uniqBy {A} (items : list A) (key : A → string) : list A :=
  uniqBy_from key ∅ items.

(** [difference(first, second)] *)
Definition difference (first second : list string) : list string :=
  filter (λ x, x ∉ second) first.

Definition bulkError : string := "BulkError".

(** [Table.bulkAdd]: a key that is already stored is refused and the call
    rejects; what a rejected call leaves in the table is not modelled. *)
Definition bulkAdd (items : list IAssetInfo) (table : gmap string IAssetInfo)
  : Result (gmap string IAssetInfo) :=
  foldl (λ acc a,
           t ← acc;
           match t !! ai_id a with
           | Some _ => Throw bulkError
           | None => Ok (<[ai_id a := a]> t)
           end)
    (Ok table) items.

(** [AssetInfoDbService.addIfNotExists] *)
Definition addIfNotExists (table : gmap string IAssetInfo) (assets : list IAssetInfo)
  : Result (gmap string IAssetInfo) :=
  match assets with
  | [] => Ok table
  | _ :: _ =>
      let assets := uniqBy assets ai_id in
      let paramIds := ai_id <$> assets in
      let dbIds := filter (λ k, is_Some (table !! k)) paramIds in
      let uncommited := difference paramIds dbIds in
      match uncommited with
      | [] => Ok table
      | _ :: _ => bulkAdd (filter (λ a, ai_id a ∈ uncommited) assets) table
      end
  end.

(** [AssetInfoDbService.get] *)
Definition get (table : gmap string IAssetInfo) (tokenId : string) : option IAssetInfo :=
  table !! tokenId.

(** The upgrade to version 6 of the schema, which fills the new asset
    information table from the asset table. *)
Definition upgrade6 `{K : ErgoConstants}
    (assets : list DbMore.IDbAsset) (assetInfo : gmap string IAssetInfo)
  : Result (gmap string IAssetInfo) :=
  match assets with
  | [] => Ok assetInfo
  | _ :: _ =>
      let assetInfo' :=
        uniqBy
          ((λ a, {| ai_id := DbMore.as_tokenId a;
                    ai_mintingBoxId := EmptyString;
                    ai_decimals := DbMore.as_decimals a;
                    ai_name := DbMore.as_name a |})
             <$> filter (λ a, DbMore.as_tokenId a ≠ ERG_TOKEN_ID) assets)
          ai_id in
      bulkAdd assetInfo' assetInfo
  end.

End AssetInfoDb.
(** * Facts about the database services *)

Section DbFacts.
Import Db.

Lemma insert_by_index_elem a b l : b ∈ insert_by_index a l ↔ b = a ∨ b ∈ l.
Proof.
  induction l as [|c l IH]; simpl.
  - rewrite list_elem_of_singleton, elem_of_nil. tauto.
  - destruct (a_index a <=? a_index c); rewrite !elem_of_cons; [tauto|].
    rewrite IH. tauto.
Qed.

Lemma orderBy_index_elem b l : b ∈ orderBy_index l ↔ b ∈ l.
Proof.
  induction l as [|c l IH]; simpl; [done|].
  rewrite insert_by_index_elem, IH, elem_of_cons. tauto.
Qed.

Lemma insert_by_index_sorted a l :
  StronglySorted by_index l → StronglySorted by_index (insert_by_index a l).
Proof.
  induction 1 as [|c l Hs IH Hc]; simpl.
  - repeat constructor.
  - destruct (Z.leb_spec (a_index a) (a_index c)) as [Hle|Hgt].
    + constructor; [by constructor|].
      constructor; [done|].
      eapply Forall_impl; [exact Hc|]. unfold by_index. intros; lia.
    + constructor; [done|].
      apply Forall_forall. intros x Hx.
      apply insert_by_index_elem in Hx as [->|Hx].
      * unfold by_index; lia.
      * by eapply Forall_forall in Hc.
Qed.

Lemma orderBy_index_sorted l : StronglySorted by_index (orderBy_index l).
Proof.
  induction l; simpl; [constructor|by apply insert_by_index_sorted].
Qed.

(** The first match of a list sorted by index has the lowest index among
    the matches. *)
Lemma first_filter_sorted (P : IDbAddress → Prop) `{∀ x, Decision (P x)} l a :
  StronglySorted by_index l →
  first (filter P l) = Some a →
  a ∈ l ∧ P a ∧ ∀ b, b ∈ l → P b → a_index a ≤ a_index b.
Proof.
  unfold first. induction 1 as [|c l Hs IH Hc]; [done|].
  rewrite filter_cons. destruct (decide (P c)) as [Hp|Hp]; simpl.
  - intros [= ->]. split_and!; [left|done|].
    intros b [->|Hb]%elem_of_cons _; [lia|].
    by eapply Forall_forall in Hc.
  - intros Hh. destruct (IH Hh) as (Hin & HP & Hmin).
    split_and!; [by right|done|].
    intros b [->|Hb]%elem_of_cons Hb'; [done|by apply Hmin].
Qed.

Lemma first_filter_Some {A} (P : A → Prop) `{∀ x, Decision (P x)} (l : list A) a :
  first (filter P l) = Some a → a ∈ l ∧ P a.
Proof.
  unfold first. intros Hh%head_Some_elem_of.
  apply list_elem_of_filter in Hh. tauto.
Qed.

Lemma first_filter_None {A} (P : A → Prop) `{∀ x, Decision (P x)} (l : list A) :
  first (filter P l) = None ↔ ¬ ∃ a, a ∈ l ∧ P a.
Proof.
  unfold first. rewrite head_None. split.
  - intros Hnil (a & Hin & Hp).
    assert (a ∈ filter P l) as Ha by (apply list_elem_of_filter; done).
    rewrite Hnil in Ha. by apply not_elem_of_nil in Ha.
  - intros Hno. destruct (filter P l) as [|a l'] eqn:E; [done|].
    exfalso. apply Hno. exists a.
    assert (a ∈ filter P l) as Ha by (rewrite E; left).
    apply list_elem_of_filter in Ha. tauto.
Qed.

Lemma first_orderBy_lowest (P : IDbAddress → Prop) `{∀ x, Decision (P x)} l a :
  first (filter P (orderBy_index l)) = Some a → lowest_index P l a.
Proof.
  intros Hf. apply first_filter_sorted in Hf as (Hin & HP & Hmin);
    [|apply orderBy_index_sorted].
  split_and!; [by apply orderBy_index_elem|done|].
  intros b Hb. apply Hmin. by apply orderBy_index_elem.
Qed.

Lemma first_orderBy_None (P : IDbAddress → Prop) `{∀ x, Decision (P x)} l :
  first (filter P (orderBy_index l)) = None ↔ ¬ ∃ a, a ∈ l ∧ P a.
Proof.
  rewrite first_filter_None. split; intros Hno (a & Hin & Hp); apply Hno;
    exists a; (split; [by apply orderBy_index_elem|done]).
Qed.

Lemma getById_id db id w : getById db id = Some w → w_id w = id.
Proof. unfold getById. intros Hf%first_filter_Some. tauto. Qed.

(** C6: the change address follows the precedence: without the wallet,
    none; with address-reuse avoidance, the unused address of lowest index;
    otherwise an address at the default change index; and when that rule
    resolves to nothing, the wallet's address of lowest index (none when
    the wallet has no address). *)
Theorem getChangeAddress_precedence (db : dbContext) (walletId : Z) :
  (getById db walletId = None → getChangeAddress db walletId = None)
  ∧ ∀ wallet, getById db walletId = Some wallet →
      (avoidAddressReuse (w_settings wallet) = true →
       (∃ a, a ∈ addresses db ∧ unused walletId a) →
       ∃ a, getChangeAddress db walletId = Some a
            ∧ lowest_index (unused walletId) (addresses db) a)
      ∧ (avoidAddressReuse (w_settings wallet) = false →
         (∃ a, a ∈ addresses db ∧ at_default wallet a) →
         ∃ a, getChangeAddress db walletId = Some a
              ∧ a ∈ addresses db ∧ a_walletId a = walletId
              ∧ a_index a = defaultChangeIndex (w_settings wallet))
      ∧ (unresolved db wallet →
         (∃ a, a ∈ addresses db ∧ owned walletId a) →
         ∃ a, getChangeAddress db walletId = Some a
              ∧ lowest_index (owned walletId) (addresses db) a)
      ∧ (unresolved db wallet →
         (¬ ∃ a, a ∈ addresses db ∧ owned walletId a) →
         getChangeAddress db walletId = None).
Proof.
  unfold getChangeAddress. split; [by intros ->|].
  intros wallet Hw. rewrite Hw. pose proof (getById_id _ _ _ Hw) as Hid.
  unfold _getChangeAddress, unresolved, unused, at_default, owned.
  rewrite Hid. split_and!.
  - intros -> Hex.
    destruct (first (filter _ (orderBy_index _))) as [a|] eqn:E.
    + exists a. split; [done|]. by apply first_orderBy_lowest in E.
    + by apply first_orderBy_None in E.
  - intros -> Hex.
    destruct (first (filter _ (addresses db))) as [a|] eqn:E.
    + exists a. apply first_filter_Some in E as (? & ? & ?). done.
    + by apply first_filter_None in E.
  - destruct (avoidAddressReuse _); intros Hno Hex.
    + rewrite (proj2 (first_orderBy_None _ _) Hno).
      destruct (first _) as [a|] eqn:E.
      * exists a. split; [done|]. by apply first_orderBy_lowest in E.
      * by apply first_orderBy_None in E.
    + rewrite (proj2 (first_filter_None _ _) Hno).
      destruct (first _) as [a|] eqn:E.
      * exists a. split; [done|]. by apply first_orderBy_lowest in E.
      * by apply first_orderBy_None in E.
  - destruct (avoidAddressReuse _); intros Hno Hex.
    + rewrite (proj2 (first_orderBy_None _ _) Hno).
      by apply first_orderBy_None.
    + rewrite (proj2 (first_filter_None _ _) Hno).
      by apply first_orderBy_None.
Qed.

(** A worked lookup for each rule of the precedence. *)
Lemma getChangeAddress_precedence_witness :
  getChangeAddress Sample.db 9 = None
  ∧ (∃ a, getChangeAddress Sample.db 1 = Some a
          ∧ lowest_index (unused 1) (addresses Sample.db) a)
  ∧ (∃ a, getChangeAddress Sample.db 2 = Some a
          ∧ a ∈ addresses Sample.db ∧ a_walletId a = 2 ∧ a_index a = 1)
  ∧ (∃ a, getChangeAddress Sample.db 3 = Some a
          ∧ lowest_index (owned 3) (addresses Sample.db) a).
Proof.
  split_and!.
  - apply (proj1 (getChangeAddress_precedence Sample.db 9)). reflexivity.
  - apply (proj2 (getChangeAddress_precedence Sample.db 1) (Sample.wallet_rec 1 true 0));
      [reflexivity|reflexivity|].
    exists (Sample.addr "9a" 2 Unused 1). split; [|done]. simpl. by repeat constructor.
  - apply (proj2 (getChangeAddress_precedence Sample.db 2) (Sample.wallet_rec 2 false 1));
      [reflexivity|reflexivity|].
    exists (Sample.addr "9e" 1 Used 2). split; [|done]. simpl. by repeat constructor.
  - apply (proj2 (getChangeAddress_precedence Sample.db 3) (Sample.wallet_rec 3 false 7));
      [reflexivity| |].
    + intros (a & Hin & Hw & Hi). simpl in Hin.
      repeat (apply elem_of_cons in Hin as [->|Hin]; [simpl in *; lia|]).
      by apply elem_of_nil in Hin.
    + exists (Sample.addr "9f" 4 Used 3). split; [|done]. simpl. by repeat constructor.
Defined.

Lemma NoDup_fmap_inj_on {A B} (f : A → B) (l : list A) x y :
  NoDup (f <$> l) → x ∈ l → y ∈ l → f x = f y → x = y.
Proof.
  induction l as [|z l IH]; simpl; [by intros _ ?%elem_of_nil|].
  intros [Hz Hl]%NoDup_cons [->|Hx]%elem_of_cons [->|Hy]%elem_of_cons Hf; [done| | |by apply IH].
  - exfalso. apply Hz. rewrite Hf. by apply list_elem_of_fmap_2.
  - exfalso. apply Hz. rewrite <- Hf. by apply list_elem_of_fmap_2.
Qed.

(** C9: with scripts as the primary key of the address table, the strict
    lookup throws the ownership error when the wallet owns fewer matching
    addresses than scripts were asked for, the loose lookup returns the
    matching addresses, and a strict lookup that returns has exactly one
    address for each requested script. *)
Theorem getByWalletIdAndScripts_ownership
    (db : dbContext) (walletId : Z) (scripts : list string) :
  NoDup (a_script <$> addresses db) →
  let matching :=
    filter (λ a, a_walletId a = walletId ∧ a_script a ∈ scripts) (addresses db) in
  ((length matching < length scripts)%nat →
   getByWalletIdAndScripts db walletId scripts strict = Throw ownershipError)
  ∧ getByWalletIdAndScripts db walletId scripts loose = Ok matching
  ∧ ∀ result, getByWalletIdAndScripts db walletId scripts strict = Ok result →
      result = matching
      ∧ length result = length scripts
      ∧ ∀ s, s ∈ scripts →
          ∃ a, a ∈ result ∧ a_script a = s
               ∧ ∀ a', a' ∈ result → a_script a' = s → a' = a.
Proof.
  intros Hkey matching. unfold getByWalletIdAndScripts.
  rewrite list_filter_filter. fold matching. split_and!.
  - intros Hlt. destruct (decide _) as [_|Heq]; [done|]. lia.
  - done.
  - intros result Hres. destruct (decide _) as [|Hlen]; [done|].
    injection Hres as <-. apply dec_stable in Hlen.
    split; [done|]. split; [done|].
    assert (NoDup (a_script <$> matching)) as Hnd.
    { apply (sublist_NoDup _ (a_script <$> addresses db)); [exact Hkey|].
      apply fmap_sublist, sublist_filter. }
    assert (a_script <$> matching ⊆+ scripts) as Hsub.
    { apply NoDup_submseteq; [done|].
      intros s (a & -> & Ha)%list_elem_of_fmap.
      apply list_elem_of_filter in Ha. tauto. }
    assert (a_script <$> matching ≡ₚ scripts) as Hperm.
    { apply submseteq_length_Permutation; [done|].
      rewrite length_fmap. lia. }
    intros s Hs. rewrite <- Hperm in Hs.
    apply list_elem_of_fmap in Hs as (a & -> & Ha).
    exists a. split_and!; [done..|].
    intros a' Ha' Heq. by apply (NoDup_fmap_inj_on a_script matching).
Qed.

(** Two scripts asked for, one of them owned by another wallet: the strict
    lookup throws and the loose one returns the single match. *)
Lemma getByWalletIdAndScripts_ownership_witness :
  getByWalletIdAndScripts Sample.db 1 ["9a"; "9d"] strict = Throw ownershipError
  ∧ getByWalletIdAndScripts Sample.db 1 ["9a"; "9d"] loose
    = Ok [Sample.addr "9a" 2 Unused 1].
Proof.
  assert (NoDup (a_script <$> addresses Sample.db)) as Hkey
    by (apply (bool_decide_unpack _); vm_compute; exact I).
  destruct (getByWalletIdAndScripts_ownership Sample.db 1 ["9a"; "9d"] Hkey)
    as (Hstrict & Hloose & _).
  split.
  - apply Hstrict. vm_compute. lia.
  - rewrite Hloose. reflexivity.
Defined.

End DbFacts.

(** * Facts about the builders *)

Section BuilderFacts.
Context `{K : ErgoConstants} `{S : Sdk} `{B : BabelFees}.

Lemma bind_Ok {X Y} (m : Result X) (k : X → Result Y) y :
  (x ← m; k x) = Ok y ↔ ∃ x, m = Ok x ∧ k x = Ok y.
Proof.
  destruct m as [x|msg]; simpl; split.
  - intros Hk. by exists x.
  - by intros (x' & [= <-] & Hk).
  - done.
  - by intros (x' & [=] & _).
Qed.

Lemma bind_Throw {X Y} (m : Result X) (k : X → Result Y) msg :
  m = Throw msg → (x ← m; k x) = Throw msg.
Proof. by intros ->. Qed.



Lemma setSelectionAndChangeStrategy_settings b walletType :
  tb_settings b = tb_settings (new_TransactionBuilder 0) →
  tb_selector b = tb_selector (new_TransactionBuilder 0) →
  let b' := setSelectionAndChangeStrategy b walletType in
  match walletType with
  | Ledger =>
      tb_settings b' = {| maxTokensPerChangeBox := Some 1; isolateErgOnChange := true |}
      ∧ tb_selector b'
        = {| strategy := Some CherryPickSelectionStrategy; ordering := None |}
  | _ =>
      tb_settings b' = {| maxTokensPerChangeBox := Some 100; isolateErgOnChange := false |}
      ∧ tb_selector b' = {| strategy := None; ordering := Some creationHeight_asc |}
  end.
Proof.
  intros Hs Hsel. unfold setSelectionAndChangeStrategy.
  destruct walletType; simpl; rewrite Hs, Hsel; done.
Qed.

Lemma from_settings l e b b' :
  from l e b = Ok b' →
  tb_settings b' = tb_settings b ∧ tb_selector b' = tb_selector b
  ∧ tb_outputs b' = tb_outputs b ∧ tb_feeAmount b' = tb_feeAmount b
  ∧ tb_plugins b' = tb_plugins b.
Proof. unfold from. intros (all & _ & [= <-])%bind_Ok. done. Qed.

Lemma payFee_settings q b b' :
  payFee q b = Ok b' →
  tb_settings b' = tb_settings b ∧ tb_selector b' = tb_selector b
  ∧ tb_outputs b' = tb_outputs b ∧ tb_inputs b' = tb_inputs b
  ∧ tb_ensureInclusion b' = tb_ensureInclusion b
  ∧ tb_plugins b' = tb_plugins b
  ∧ ∃ fee, toBigInt q = Ok fee ∧ tb_feeAmount b' = Some fee.
Proof. unfold payFee. intros (fee & Hfee & [= <-])%bind_Ok. split_and!; eauto. Qed.

(** [setFee] leaves the outputs, the settings and the selector of the
    builder alone. *)
Lemma setFee_frame env b fee :
  let out := setFee env b fee in
  tb_settings (builder_after out) = tb_settings b
  ∧ tb_selector (builder_after out) = tb_selector b
  ∧ tb_outputs (builder_after out) = tb_outputs b
  ∧ tb_inputs (builder_after out) = tb_inputs b.
Proof.
  assert (∀ q b' f,
    tb_settings (builder_after (payFee_end q b' f)) = tb_settings b'
    ∧ tb_selector (builder_after (payFee_end q b' f)) = tb_selector b'
    ∧ tb_outputs (builder_after (payFee_end q b' f)) = tb_outputs b'
    ∧ tb_inputs (builder_after (payFee_end q b' f)) = tb_inputs b') as Hend.
  { intros q b' f. unfold payFee_end. destruct (payFee q b') as [b''|] eqn:E; [|done].
    apply payFee_settings in E. simpl. tauto. }
  unfold setFee. simpl. case_bool_decide; [|apply Hend].
  destruct (fetchBabelBoxes env _ _) as [boxes|]; [|done].
  destruct (selectBestBabelBox _ _) as [box|]; [|done].
  destruct (_ && _); simpl; exact (Hend _ (extend _ b) _).
Qed.

(** C7: the builder that either build hands to [build] carries the
    settings of the wallet type and nothing else: cherry-pick selection and
    one token per change box for a Ledger wallet; inputs ordered by
    ascending creation height and 100 tokens per change box for any
    other. *)
Theorem selection_and_change_by_wallet_type (env : Env) :
  let profile (walletType : WalletType) (unsigned : TransactionBuilder) :=
    match walletType with
    | Ledger =>
        tb_settings unsigned
        = {| maxTokensPerChangeBox := Some 1; isolateErgOnChange := true |}
        ∧ tb_selector unsigned
          = {| strategy := Some CherryPickSelectionStrategy; ordering := None |}
    | _ =>
        tb_settings unsigned
        = {| maxTokensPerChangeBox := Some 100; isolateErgOnChange := false |}
        ∧ tb_selector unsigned = {| strategy := None; ordering := Some creationHeight_asc |}
    end in
  (∀ tx unsigned,
      createRBFCancellationTransaction_unsigned env tx = Ok unsigned →
      profile (ws_type (wallet env)) unsigned)
  ∧ (∀ recipient assets fee walletType unsigned fee',
        createP2PTransaction_unsigned env recipient assets fee walletType
        = (Ok unsigned, fee') →
        profile walletType unsigned).
Proof.
  intros profile. split.
  - intros tx unsigned. unfold createRBFCancellationTransaction_unsigned.
    intros (ctx & _ & (b1 & H1 & (b2 & H2 & (b3 & H3 & [= <-])%bind_Ok)%bind_Ok)%bind_Ok)%bind_Ok.
    apply from_settings in H1 as (? & ? & _), H2 as (? & ? & _).
    apply payFee_settings in H3 as (? & ? & _).
    apply setSelectionAndChangeStrategy_settings; simpl in *; congruence.
  - intros recipient assets fee walletType unsigned fee'.
    unfold createP2PTransaction_unsigned.
    destruct (_ ← getContext env; _) as [b|] eqn:Hprep; [|done].
    intros [= Hend _].
    apply bind_Ok in Hend as (_ & _ & [= <-]).
    apply bind_Ok in Hprep as (ctx & _ & (b1 & H1 & (n & _ & (tokens & _ & [= <-])%bind_Ok)%bind_Ok)%bind_Ok).
    apply from_settings in H1 as (? & ? & _).
    destruct (setFee_frame env
      (sendChangeTo (safeGetChangeAddress env)
         (to {| o_value := n; o_recipient := recipient; o_tokens := tokens |} b1)) fee)
      as (? & ? & _).
    apply setSelectionAndChangeStrategy_settings; simpl in *; congruence.
Qed.

Lemma toBigInt_Ok (v : BigNumber) (z : Z) : toBigInt v = Ok z → (bn z == v)%Q.
Proof.
  unfold toBigInt. pose proof (Qred_correct v) as Hred.
  destruct (Qred v) as [n d]; simpl in *.
  destruct (decide (d = 1%positive)) as [->|]; [|done].
  intros [= <-]. exact Hred.
Qed.

Lemma add_inputs_Ok new old all : add_inputs new old = Ok all → all = old ++ new.
Proof.
  revert old. induction new as [|b new IH]; simpl; intros old.
  - intros [= <-]. by rewrite app_nil_r.
  - destruct (decide _); [done|]. intros ->%IH. by rewrite <- app_assoc.
Qed.

Lemma from_inputs l e b b' :
  from l e b = Ok b' →
  tb_inputs b' = tb_inputs b ++ l
  ∧ tb_ensureInclusion b'
    = (if e then tb_ensureInclusion b ∪ list_to_set (boxId <$> l) else tb_ensureInclusion b).
Proof.
  unfold from. intros (all & Hall%add_inputs_Ok & [= <-])%bind_Ok. by subst.
Qed.

Lemma setSelectionAndChangeStrategy_frame b walletType :
  let b' := setSelectionAndChangeStrategy b walletType in
  tb_inputs b' = tb_inputs b ∧ tb_ensureInclusion b' = tb_ensureInclusion b
  ∧ tb_outputs b' = tb_outputs b ∧ tb_feeAmount b' = tb_feeAmount b
  ∧ tb_plugins b' = tb_plugins b.
Proof. unfold setSelectionAndChangeStrategy. by destruct (decide _). Qed.

(** The builder of a cancellation holds the original transaction's own
    inputs, marks each as must-include, has no output and no plugin, and
    pays the original fee plus the increment. *)
Lemma cancellation_unsigned env tx unsigned :
  createRBFCancellationTransaction_unsigned env tx = Ok unsigned →
  (∀ input, input ∈ ownInputs tx →
            input ∈ tb_inputs unsigned ∧ boxId input ∈ tb_ensureInclusion unsigned)
  ∧ tb_outputs unsigned = [] ∧ tb_plugins unsigned = []
  ∧ ∃ fee, tb_feeAmount unsigned = Some fee
           ∧ (bn fee == undecimalize (ut_fee tx) (Some ERG_DECIMALS)
                        + bn SAFE_MIN_FEE_VALUE)%Q.
Proof.
  unfold createRBFCancellationTransaction_unsigned.
  intros (ctx & _ & (b1 & H1 & (b2 & H2 & (b3 & H3 & [= <-])%bind_Ok)%bind_Ok)%bind_Ok)%bind_Ok.
  destruct (setSelectionAndChangeStrategy_frame
              (sendChangeTo (safeGetChangeAddress env) b3) (ws_type (wallet env)))
    as (-> & -> & -> & -> & ->). simpl.
  pose proof (from_inputs _ _ _ _ H1) as [Hi1 He1].
  pose proof (from_inputs _ _ _ _ H2) as [Hi2 He2].
  apply from_settings in H1 as (_ & _ & Ho1 & _ & Hp1).
  apply from_settings in H2 as (_ & _ & Ho2 & _ & Hp2).
  apply payFee_settings in H3 as (_ & _ & -> & -> & -> & -> & fee & Hfee & ->).
  simpl in *. split_and!.
  - intros input Hin. rewrite Hi2, Hi1, He2, He1. split.
    + apply elem_of_app. by left.
    + apply elem_of_union_r, elem_of_list_to_set. by apply list_elem_of_fmap_2.
  - congruence.
  - congruence.
  - exists fee. split; [done|]. by apply toBigInt_Ok.
Qed.

(** C1: a cancellation draft holds every own input of the original
    transaction, whatever the selection strategy picks, and its fee is the
    original fee plus the minimum-fee increment, which is more than the
    original fee. *)
Theorem cancellation_pins_inputs_and_raises_fee
    (env : Env) (tx : UnconfirmedTransactionSummary) (draft : EIP12UnsignedTransaction) :
  0 < SAFE_MIN_FEE_VALUE →
  createRBFCancellationTransaction env tx = Ok draft →
  (∀ input, input ∈ ownInputs tx → input ∈ tx_inputs draft)
  ∧ tx_payments draft = []
  ∧ ∃ fee, tx_fee draft = Some fee
           ∧ (bn fee == undecimalize (ut_fee tx) (Some ERG_DECIMALS)
                        + bn SAFE_MIN_FEE_VALUE)%Q
           ∧ (undecimalize (ut_fee tx) (Some ERG_DECIMALS) < bn fee)%Q.
Proof.
  intros Hmin. unfold createRBFCancellationTransaction.
  intros (unsigned & Hu & Hbuild)%bind_Ok.
  apply cancellation_unsigned in Hu as (Hown & Hout & Hplug & fee & Hfee & Hval).
  unfold build in Hbuild. rewrite Hplug, Hout in Hbuild. simpl in Hbuild.
  destruct (selectInputs _ _ _ _ _) as [picks|]; [|done].
  apply bind_Ok in Hbuild as (change & _ & [= <-]). simpl. split_and!.
  - intros input [Hin Hens]%Hown.
    apply elem_of_app. left. apply elem_of_app. left.
    by apply list_elem_of_filter.
  - done.
  - exists fee. split_and!; [done..|].
    assert (0 < bn SAFE_MIN_FEE_VALUE)%Q as Hpos.
    { unfold bn. change 0%Q with (inject_Z 0). by rewrite <- Zlt_Qlt. }
    unfold undecimalize in *.
    set (original := (ut_fee tx * 10 ^ ERG_DECIMALS)%Q) in *. clearbody original.
    set (increment := bn SAFE_MIN_FEE_VALUE) in *. clearbody increment.
    rewrite Hval. lra.
Qed.





Lemma payFee_end_frame q b f :
  let out := payFee_end q b f in
  ended out ≠ Throw noLiquidity ∧ fee_after out = f
  ∧ tb_plugins (builder_after out) = tb_plugins b
  ∧ tb_inputs (builder_after out) = tb_inputs b
  ∧ tb_outputs (builder_after out) = tb_outputs b.
Proof.
  unfold payFee_end, payFee. destruct (toBigInt q) as [z|m] eqn:E; simpl; [done|].
  unfold toBigInt in E. destruct (decide _); [done|]. by injection E as <-.
Qed.

Lemma runPlugin_Ok box token amount io :
  runPlugin (BabelSwapPlugin box token amount) = Ok io →
  io.1 = box ∧ o_recipient io.2 = ergoTree box
  ∧ (bn (value box - o_value io.2) == amount * getNanoErgsPerTokenRate box)%Q
  ∧ ∃ units, (bn units == amount)%Q
             ∧ o_tokens io.2 = [{| tokenId := token; amount := held token box + units |}].
Proof.
  simpl. intros (units & Hu%toBigInt_Ok & (n & Hn%toBigInt_Ok & [= <-])%bind_Ok)%bind_Ok.
  simpl. split_and!; [done..| |by exists units].
  rewrite <- Hn. by replace (value box - (value box - n)) with n by lia.
Qed.


Lemma Qlt_bool_iff (a b : Q) : Qlt_bool a b = true ↔ (a < b)%Q.
Proof.
  unfold Qlt_bool. rewrite negb_true_iff. split.
  - intros Hle. apply Qnot_le_lt. intros Hle'%Qle_bool_iff. congruence.
  - intros Hlt. destruct (Qle_bool b a) eqn:E; [|done].
    apply Qle_bool_iff in E. by apply Qle_not_lt in E.
Qed.

(** What a [setFee] that returns has done under a fee asset other than the
    native one. *)
Lemma setFee_babel_Ok env b fee :
  fee_tokenId fee ≠ ERG_TOKEN_ID →
  ended (setFee env b fee) = Ok () →
  let tokenUnits := undecimalize (fee_value fee) (fee_assetInfo fee ≫= md_decimals) in
  let sending := bn (outputs_nanoErgs (tb_outputs b)) in
  ∃ boxes box paid,
    fetchBabelBoxes env [fee_tokenId fee] (fee_nanoErgsPerToken fee) = Fulfilled boxes
    ∧ selectBestBabelBox boxes tokenUnits = Some box
    ∧ fee_after (setFee env b fee) = set_box fee box
    ∧ tb_outputs (builder_after (setFee env b fee)) = tb_outputs b
    ∧ tb_feeAmount (builder_after (setFee env b fee)) = Some paid
    ∧ (bn paid ==
       if Qlt_bool 0 sending && Qle_bool sending (bn MIN_BOX_VALUE)
          && Qle_bool sending
               (tokenUnits * getNanoErgsPerTokenRate box - bn SAFE_MIN_FEE_VALUE)
       then tokenUnits * getNanoErgsPerTokenRate box - bn MIN_BOX_VALUE
       else tokenUnits * getNanoErgsPerTokenRate box)%Q.
Proof.
  intros Hbabel Hend tokenUnits sending. revert Hend. unfold setFee.
  rewrite bool_decide_true by done. fold tokenUnits sending.
  destruct (fetchBabelBoxes env _ _) as [boxes|]; [|done].
  destruct (selectBestBabelBox boxes _) as [box|] eqn:Hsel; [|done].
  intros Hend. exists boxes, box.
  destruct (_ && _); simpl in *; unfold payFee_end in *.
  all: match goal with
       | |- context [payFee ?q ?b'] => destruct (payFee q b') as [b''|] eqn:E; [|done]
       end.
  all: apply payFee_settings in E as (_ & _ & Hout & _ & _ & _ & paid & Hpaid & Hfee).
  all: exists paid; simpl; split_and!; [done..|by apply toBigInt_Ok].
Qed.


End BuilderFacts.


(** A payment from a Ledger wallet. *)
Lemma selection_and_change_by_wallet_type_witness :
  ∃ unsigned fee',
    createP2PTransaction_unsigned (K := Sample.constants) (S := Sample.sdk)
      (B := Sample.babelFees) Sample.env "rcpt" [Sample.erg (2 # 10)] Sample.feeErg Ledger
    = (Ok unsigned, fee')
    ∧ maxTokensPerChangeBox (tb_settings unsigned) = Some 1
    ∧ strategy (tb_selector unsigned) = Some CherryPickSelectionStrategy.
Proof.
  eexists _, _. split; [vm_compute; reflexivity|].
  pose proof (proj2 (selection_and_change_by_wallet_type (K := Sample.constants)
      (S := Sample.sdk) (B := Sample.babelFees) Sample.env)
    "rcpt" [Sample.erg (2 # 10)] Sample.feeErg Ledger _ _ eq_refl) as [Hsettings Hselector].
  split.
  - exact (f_equal maxTokensPerChangeBox Hsettings).
  - exact (f_equal strategy Hselector).
Defined.

(** The cancellation of a transaction that spent box [i2] at a fee of
    0.0011. *)
Lemma cancellation_pins_inputs_and_raises_fee_witness :
  ∃ draft,
    createRBFCancellationTransaction (K := Sample.constants) (S := Sample.sdk)
      (B := Sample.babelFees) Sample.env Sample.cancelled = Ok draft
    ∧ Sample.box "i2" 100000 "p2pk" [] ∈ tx_inputs draft
    ∧ tx_fee draft = Some 2200000.
Proof.
  eexists. split; [vm_compute; reflexivity|].
  destruct (cancellation_pins_inputs_and_raises_fee (K := Sample.constants)
              (S := Sample.sdk) (B := Sample.babelFees) Sample.env Sample.cancelled _
              ltac:(reflexivity) eq_refl) as (Hown & _ & _).
  split; [|reflexivity]. apply Hown. simpl. left.
Defined.




(** * Facts about the output interpreter *)

Section InterpreterFacts.
Context `{K : ErgoConstants} `{S : Sdk}.

Lemma js_find_Some {A} (P : A → Prop) `{∀ x, Decision (P x)} (l : list A) x :
  js_find P l = Some x →
  ∃ before after, l = before ++ x :: after ∧ P x ∧ ∀ y, y ∈ before → ¬ P y.
Proof.
  unfold js_find. induction l as [|a l IH]; [done|].
  rewrite filter_cons. destruct (decide (P a)) as [Hp|Hp]; simpl.
  - intros [= ->]. exists [], l. split_and!; [done..|].
    by intros y ?%elem_of_nil.
  - intros (before & after & -> & Hx & Hb)%IH.
    exists (a :: before), after. split_and!; [done..|].
    intros y [->|Hy]%elem_of_cons; [done|by apply Hb].
Qed.

Lemma js_find_None {A} (P : A → Prop) `{∀ x, Decision (P x)} (l : list A) :
  js_find P l = None ↔ ∀ y, y ∈ l → ¬ P y.
Proof.
  unfold js_find. rewrite head_None. split.
  - intros Hnil y Hy Hp. eapply filter_nil_not_elem_of; eauto.
  - intros Hno. induction l as [|a l IH]; [done|].
    rewrite filter_cons_False by (apply Hno; left).
    apply IH. intros y Hy. apply Hno. by right.
Qed.

Lemma pow10_not_0 (d : Z) : ¬ (10 ^ d == 0)%Q.
Proof. by apply Qpower_not_0. Qed.

Lemma decimalize_scaled (v : BigNumber) (d : Z) :
  (decimalize v (Some d) * 10 ^ d == v)%Q.
Proof. simpl. rewrite Qmult_comm. apply Qmult_div_r, pow10_not_0. Qed.

(** C4, as the code has it: for a swap settlement the interpreter reports,
    against the first input that shares the box's script, one entry for
    each asset of the box with the output amount less the input amount,
    and a last entry for the native currency with the input value less the
    output value, each divided by [10^decimals]. *)
Theorem swap_settlement_reports_the_trade
    (box : ErgoBoxCandidate) (inputs : list Box)
    (metadata : gmap string BasicAssetMetadata) (addresses : option (list string)) :
  isBabelBoxSwap box inputs = true →
  ∃ input before after,
    inputs = before ++ input :: after
    ∧ ergoTree input = c_ergoTree box
    ∧ (∀ other, other ∈ before → ergoTree other ≠ c_ergoTree box)
    ∧ let reported := _assets (new_OutputInterpreter box inputs metadata addresses) in
      length reported = Datatypes.S (length (c_assets box))
      ∧ (∀ i token, c_assets box !! i = Some token →
           ∃ a, reported !! i = Some a
                ∧ oa_tokenId a = tokenId token
                ∧ (oa_amount a * 10 ^ default 0%Z (metadata !! tokenId token ≫= md_decimals)
                   == bn (amount token) - bn (held (tokenId token) input))%Q)
      ∧ ∃ native, reported !! length (c_assets box) = Some native
                  ∧ oa_tokenId native = ERG_TOKEN_ID
                  ∧ (oa_amount native * 10 ^ ERG_DECIMALS
                     == bn (value input) - bn (c_value box))%Q.
Proof.
  intros Hswap. unfold new_OutputInterpreter. simpl. rewrite Hswap.
  unfold isBabelBoxSwap in Hswap. apply andb_true_iff in Hswap as [_ Hsome].
  apply bool_decide_eq_true in Hsome as [input Hfind].
  unfold buildBabelSwapAssetsList. rewrite Hfind.
  apply js_find_Some in Hfind as (before & after & -> & Htree & Hfirst).
  exists input, before, after. split_and!; [done..| | |].
  - rewrite length_app, length_fmap. simpl. lia.
  - intros i token Hi. exists (swap_asset metadata input token). split_and!.
    + rewrite lookup_app_l by (rewrite length_fmap; by eapply lookup_lt_Some).
      by rewrite list_lookup_fmap, Hi.
    + done.
    + apply decimalize_scaled.
  - eexists. split_and!.
    + rewrite lookup_app_r by (rewrite length_fmap; lia).
      rewrite length_fmap, Nat.sub_diag. reflexivity.
    + done.
    + apply decimalize_scaled.
Qed.


Lemma no_minting_flag (l : list OutputAsset) :
  Forall (λ a, oa_minting a = false) l →
  bool_decide (is_Some (js_find (λ a, oa_minting a = true) l)) = false.
Proof.
  intros Hall. apply bool_decide_eq_false.
  assert (js_find (λ a, oa_minting a = true) l = None) as ->.
  { apply js_find_None. intros y Hy. eapply Forall_forall in Hall; [|done]. congruence. }
  by intros [? [=]].
Qed.

Lemma buildSendingAssetsList_flags box inputs metadata :
  (∀ m, getMintingToken box inputs = Some m → oa_minting m = false) →
  Forall (λ a, oa_minting a = false) (buildSendingAssetsList box inputs metadata).
Proof.
  intros Hmint. unfold buildSendingAssetsList.
  destruct (c_assets box) as [|t l]; [by repeat constructor|].
  apply Forall_app. split; [by repeat constructor|].
  assert (Forall (λ a, oa_minting a = false) (sending_asset metadata <$> t :: l)) as Htokens
    by (apply Forall_fmap, Forall_forall; done).
  destruct (getMintingToken box inputs) as [m|]; [|done].
  destruct (list_find _ _) as [[index ?]|]; [|done].
  apply Forall_insert; [done|]. by apply Hmint.
Qed.


End InterpreterFacts.

(** Counterexample to C4 as worded, on the example of the specification:
    the input held
    1000 of B and 2000000000 native units, the output holds 900 of B and
    2005000000; the interpreter reports -100 of B and -0.005 for the native
    currency (-5000000 native units), not +5000000. *)
Lemma swap_example_native_delta_is_negative :
  let reported :=
    _assets (new_OutputInterpreter (K := Sample.constants) (S := Sample.sdk)
               Sample.settled [Sample.swapBox] ∅ None) in
  isBabelBoxSwap (S := Sample.sdk) Sample.settled [Sample.swapBox] = true
  ∧ ∃ b native,
      reported = [b; native]
      ∧ oa_tokenId b = "B" ∧ (oa_amount b == -100)%Q
      ∧ oa_tokenId native = ERG_TOKEN_ID (ErgoConstants := Sample.constants)
      ∧ (oa_amount native * 10 ^ 9 == -5000000)%Q
      ∧ ¬ (oa_amount native * 10 ^ 9 == 5000000)%Q
      ∧ ¬ (oa_amount native == 5000000)%Q.
Proof.
  split; [reflexivity|]. eexists _, _. split; [vm_compute; reflexivity|].
  split_and!; try reflexivity; by vm_compute.
Qed.

(** The example of the specification, read through the theorem. *)
Lemma swap_settlement_reports_the_trade_witness :
  ∃ input native,
    input ∈ [Sample.swapBox]
    ∧ _assets (new_OutputInterpreter (K := Sample.constants) (S := Sample.sdk)
                 Sample.settled [Sample.swapBox] ∅ None) !! 1%nat = Some native
    ∧ (oa_amount native * 10 ^ 9 == bn (value input) - bn 2005000000)%Q.
Proof.
  destruct (swap_settlement_reports_the_trade (K := Sample.constants) (S := Sample.sdk)
              Sample.settled [Sample.swapBox] ∅ None eq_refl)
    as (input & before & after & Hsplit & _ & _ & _ & _ & native & Hnative & _ & Hamount).
  exists input, native. split_and!.
  - rewrite Hsplit. apply elem_of_app. right. left.
  - exact Hnative.
  - exact Hamount.
Defined.



(** * More facts about the database services *)

Section DbMoreFacts.
Import Db DbMore.

Lemma insert_by_index_least a l :
  Forall (λ b, a_index a ≤ a_index b) l → insert_by_index a l = a :: l.
Proof.
  destruct l as [|b l]; [done|]. intros [Hb _]%Forall_cons. simpl.
  by rewrite (proj2 (Z.leb_le _ _) Hb).
Qed.

Lemma filter_insert_by_index (P : IDbAddress → Prop) `{∀ x, Decision (P x)} a l :
  StronglySorted by_index l →
  filter P (insert_by_index a l)
  = if decide (P a) then insert_by_index a (filter P l) else filter P l.
Proof.
  induction 1 as [|b l Hs IH Hb]; simpl.
  - rewrite filter_cons, filter_nil. by destruct (decide (P a)).
  - destruct (Z.leb_spec (a_index a) (a_index b)) as [Hle|Hgt].
    + rewrite (filter_cons _ a). destruct (decide (P a)); [|done].
      rewrite insert_by_index_least; [done|].
      apply Forall_forall. intros x [_ Hx]%list_elem_of_filter.
      apply elem_of_cons in Hx as [->|Hx]; [done|].
      eapply Forall_forall in Hb; [|done]. unfold by_index in Hb. lia.
    + rewrite !(filter_cons _ b). destruct (decide (P b)); rewrite IH.
      * destruct (decide (P a)); [|done]. simpl.
        by rewrite (proj2 (Z.leb_gt _ _) Hgt).
      * done.
Qed.

(** Ordering by index and filtering commute. *)
Lemma filter_orderBy_index (P : IDbAddress → Prop) `{∀ x, Decision (P x)} l :
  filter P (orderBy_index l) = orderBy_index (filter P l).
Proof.
  induction l as [|a l IH]; [done|]. simpl.
  rewrite filter_insert_by_index by apply orderBy_index_sorted.
  rewrite filter_cons. destruct (decide (P a)); simpl; by rewrite IH.
Qed.

Lemma orderBy_index_Permutation l : orderBy_index l ≡ₚ l.
Proof.
  induction l as [|a l IH]; [done|]. simpl. rewrite <- IH at 2.
  generalize (orderBy_index l). intros k. clear.
  induction k as [|b k IH]; simpl; [done|].
  destruct (a_index a <=? a_index b); [done|].
  rewrite IH. apply Permutation_swap.
Qed.

(** X1: the addresses of a wallet come back ordered by ascending index,
    each stored address of the wallet exactly as often as it is stored, and
    no address of another wallet. *)
Theorem getByWalletId_sorted_and_complete (db : dbContext) (walletId : Z) :
  StronglySorted by_index (getByWalletId db walletId)
  ∧ getByWalletId db walletId ≡ₚ filter (λ a, a_walletId a = walletId) (addresses db)
  ∧ ∀ a, a ∈ getByWalletId db walletId ↔ a ∈ addresses db ∧ a_walletId a = walletId.
Proof.
  unfold getByWalletId. split_and!.
  - apply orderBy_index_sorted.
  - apply orderBy_index_Permutation.
  - intros a. rewrite orderBy_index_elem, list_elem_of_filter. tauto.
Qed.

(** X2: whatever address [getChangeAddress] returns is one of the
    wallet's own, and when the rule of the wallet's settings resolves to
    nothing it is the first address that [getByWalletId] lists. *)
Theorem getChangeAddress_is_owned (db : dbContext) (walletId : Z) :
  (∀ a, getChangeAddress db walletId = Some a → a ∈ getByWalletId db walletId)
  ∧ ∀ wallet, getById db walletId = Some wallet → unresolved db wallet →
      getChangeAddress db walletId = first (getByWalletId db walletId).
Proof.
  unfold getChangeAddress, getByWalletId. split.
  - intros a. destruct (getById db walletId) as [wallet|] eqn:Hw; [|done].
    apply getById_id in Hw. rewrite orderBy_index_elem, list_elem_of_filter.
    unfold _getChangeAddress. rewrite Hw.
    destruct (avoidAddressReuse _).
    + destruct (first _) as [b|] eqn:E.
      * intros [= <-]. apply first_filter_Some in E as (Hin & Ho & _).
        split; [done|by apply (proj1 (orderBy_index_elem _ _)) in Hin].
      * intros (Hin & Ho)%first_filter_Some.
        split; [done|by apply (proj1 (orderBy_index_elem _ _)) in Hin].
    + destruct (first _) as [b|] eqn:E.
      * intros [= <-]. apply first_filter_Some in E as (Hin & Ho & _). done.
      * intros (Hin & Ho)%first_filter_Some.
        split; [done|by apply (proj1 (orderBy_index_elem _ _)) in Hin].
  - intros wallet Hw Hno. rewrite Hw. pose proof (getById_id _ _ _ Hw) as Hid.
    rewrite <- filter_orderBy_index.
    unfold _getChangeAddress, unresolved, unused, at_default in *. rewrite Hid in *.
    destruct (avoidAddressReuse _).
    + by rewrite (proj2 (first_orderBy_None _ _) Hno).
    + by rewrite (proj2 (first_filter_None _ _) Hno).
Qed.

(** X3: the addresses in a given state come back ordered by index and
    are exactly the wallet's addresses in that state; the used and the
    unused ones together are the addresses that [getByWalletId] lists. *)
Theorem getByState_partitions (db : dbContext) (walletId : Z) :
  (∀ st, StronglySorted by_index (getByState db walletId st)
         ∧ ∀ a, a ∈ getByState db walletId st
                ↔ a ∈ addresses db ∧ a_walletId a = walletId ∧ a_state a = st)
  ∧ getByState db walletId Used ++ getByState db walletId Unused
    ≡ₚ getByWalletId db walletId.
Proof.
  unfold getByState, getByWalletId. split.
  - intros st. split.
    + rewrite filter_orderBy_index. apply orderBy_index_sorted.
    + intros a. rewrite list_elem_of_filter, orderBy_index_elem. tauto.
  - rewrite <- filter_orderBy_index.
    set (mine := filter (λ a, a_walletId a = walletId) (orderBy_index (addresses db))).
    assert (∀ st, filter (λ a, a_walletId a = walletId ∧ a_state a = st)
                    (orderBy_index (addresses db))
                  = filter (λ a, a_state a = st) mine) as Hst.
    { intros st. unfold mine. rewrite list_filter_filter.
      apply list_filter_iff. tauto. }
    rewrite !Hst.
    rewrite (list_filter_iff (λ a, a_state a = Unused) (λ a, ¬ a_state a = Used)).
    + apply filter_app_complement.
    + intros a. destruct (a_state a); split; congruence.
Qed.

Lemma ascii_compare_refl (a : ascii) : Ascii.compare a a = Eq.
Proof. apply N.compare_refl. Qed.

Lemma ascii_compare_lt_trans (a b c : ascii) :
  Ascii.compare a b = Lt → Ascii.compare b c = Lt → Ascii.compare a c = Lt.
Proof.
  unfold Ascii.compare. rewrite !N.compare_lt_iff. apply N.lt_trans.
Qed.

Lemma string_compare_refl (s : string) : String.compare s s = Eq.
Proof. induction s as [|a s IH]; simpl; [done|]. by rewrite ascii_compare_refl. Qed.

Lemma key_lt_trans (s1 s2 s3 : string) : key_lt s1 s2 → key_lt s2 s3 → key_lt s1 s3.
Proof.
  unfold key_lt. revert s2 s3.
  induction s1 as [|a s1 IH]; intros [|b s2] [|c s3]; simpl; try done.
  destruct (Ascii.compare a b) eqn:E1, (Ascii.compare b c) eqn:E2; try done.
  - apply Ascii.compare_eq_iff in E1 as ->. rewrite E2. apply IH.
  - apply Ascii.compare_eq_iff in E1 as ->. by rewrite E2.
  - apply Ascii.compare_eq_iff in E2 as <-. by rewrite E1.
  - by rewrite (ascii_compare_lt_trans _ _ _ E1 E2).
Qed.

Lemma key_lt_irrefl (s : string) : ¬ key_lt s s.
Proof. unfold key_lt. by rewrite string_compare_refl. Qed.

Lemma key_sorted_NoDup t : key_sorted t → NoDup (a_script <$> t).
Proof.
  induction 1 as [|a t Hs IH Ha]; simpl; constructor; [|done].
  intros (b & Heq & Hb)%list_elem_of_fmap.
  eapply Forall_forall in Ha; [|done]. rewrite Heq in Ha. by apply key_lt_irrefl in Ha.
Qed.

Lemma table_put_elem a x t : x ∈ table_put a t → x = a ∨ x ∈ t.
Proof.
  induction t as [|b t IH]; simpl.
  - intros ->%list_elem_of_singleton. by left.
  - destruct (String.compare _ _).
    + intros [->|?]%elem_of_cons; [by left|right; by right].
    + intros [->|?]%elem_of_cons; [by left|by right].
    + intros [->|[->|?]%IH]%elem_of_cons; [right; left|by left|right; by right].
Qed.

Lemma table_put_sorted a t : key_sorted t → key_sorted (table_put a t).
Proof.
  induction 1 as [|b t Hs IH Hb]; simpl; [by repeat constructor|].
  destruct (String.compare (a_script a) (a_script b)) eqn:E.
  - apply String.compare_eq_iff in E. constructor; [done|]. by rewrite E.
  - constructor; [by constructor|]. constructor; [done|].
    eapply Forall_impl; [exact Hb|]. intros x. by apply key_lt_trans.
  - constructor; [done|]. apply Forall_forall.
    intros x [->|Hx]%table_put_elem.
    + unfold key_lt. rewrite String.compare_antisym, E. done.
    + by eapply Forall_forall in Hb.
Qed.

Lemma table_put_lookup a t s :
  first (filter (λ x, a_script x = s) (table_put a t))
  = if decide (a_script a = s) then Some a
    else first (filter (λ x, a_script x = s) t).
Proof.
  unfold first. induction t as [|b t IH]; simpl.
  - rewrite filter_cons. by destruct (decide _).
  - destruct (String.compare (a_script a) (a_script b)) eqn:E.
    + apply String.compare_eq_iff in E. rewrite !filter_cons, <- E.
      by destruct (decide (a_script a = s)).
    + rewrite (filter_cons _ a). by destruct (decide (a_script a = s)).
    + rewrite !(filter_cons _ b). destruct (decide (a_script b = s)) as [Hb|Hb].
      * destruct (decide (a_script a = s)) as [Ha|Ha]; [|done].
        rewrite Ha, Hb, string_compare_refl in E. done.
      * apply IH.
Qed.

(** X4: a stored address is found again under its script, the lookup of
    any other script is unchanged, the wallet table is untouched, and a
    table in key order stays in key order with one record for a script. *)
Theorem put_then_getByScript (db : dbContext) (address : IDbAddress) :
  let db' := (put db address).1 in
  (put db address).2 = a_script address
  ∧ getByScript db' (a_script address) = Some address
  ∧ (∀ s, s ≠ a_script address → getByScript db' s = getByScript db s)
  ∧ wallets db' = wallets db
  ∧ (key_sorted (addresses db) →
     key_sorted (addresses db') ∧ NoDup (a_script <$> addresses db')).
Proof.
  simpl. unfold getByScript. simpl. split_and!; [done| | |done|].
  - rewrite table_put_lookup. by rewrite decide_True.
  - intros s Hs. rewrite table_put_lookup. by rewrite decide_False.
  - intros Hsorted%(table_put_sorted address). split; [done|].
    by apply key_sorted_NoDup.
Qed.

(** X5: [bulkPut] of no address leaves the tables as they are; otherwise
    a script resolves to the last address given for it, and to what it
    resolved to before when none was given. *)
Theorem bulkPut_last_write_wins (db : dbContext) (l : list IDbAddress) (s : string) :
  bulkPut db [] = db
  ∧ getByScript (bulkPut db l) s
    = match last (filter (λ a, a_script a = s) l) with
      | Some a => Some a
      | None => getByScript db s
      end.
Proof.
  split; [done|].
  assert (∀ d, getByScript (foldl (λ d a, (put d a).1) d l) s
               = match last (filter (λ a, a_script a = s) l) with
                 | Some a => Some a
                 | None => getByScript d s
                 end) as Hfold.
  { induction l as [|a l IH]; intros d; [done|]. simpl. rewrite IH.
    destruct (put_then_getByScript d a) as (_ & Hsame & Hother & _).
    rewrite filter_cons. destruct (decide (a_script a = s)) as [<-|Hne].
    - rewrite last_cons. destruct (last _); [done|]. exact Hsame.
    - destruct (last _); [done|]. by apply Hother. }
  destruct l as [|a l]; [done|]. apply Hfold.
Qed.

Lemma filter_filter_implied {A} (P Q : A → Prop)
    `{∀ x, Decision (P x)} `{∀ x, Decision (Q x)} (l : list A) :
  (∀ x, P x → Q x) → filter P (filter Q l) = filter P l.
Proof.
  intros Himp. rewrite list_filter_filter. apply list_filter_iff.
  intros x. split; [tauto|]. intros Hp. split; [done|by apply Himp].
Qed.

Lemma filter_orderBy_filter (P Q : IDbAddress → Prop)
    `{∀ x, Decision (P x)} `{∀ x, Decision (Q x)} l :
  (∀ x, P x → Q x) →
  filter P (orderBy_index (filter Q l)) = filter P (orderBy_index l).
Proof.
  intros Himp. rewrite !filter_orderBy_index. by rewrite filter_filter_implied.
Qed.

(** X6: after a wallet is deleted it is not found, no address, asset,
    connection or unspent output of it is left, and every lookup for
    another wallet answers as before. *)
Theorem delete_removes_only_that_wallet (db : Tables) (walletId : Z) :
  let db' := delete db walletId in
  getById (core db') walletId = None
  ∧ getByWalletId (core db') walletId = []
  ∧ getChangeAddress (core db') walletId = None
  ∧ Forall (λ a, as_walletId a ≠ walletId) (assets db')
  ∧ Forall (λ c, dc_walletId c ≠ walletId) (connectedDApps db')
  ∧ Forall (λ u, u_walletId u ≠ walletId) (utxos db')
  ∧ ∀ other, other ≠ walletId →
      getById (core db') other = getById (core db) other
      ∧ getByWalletId (core db') other = getByWalletId (core db) other
      ∧ (∀ st, getByState (core db') other st = getByState (core db) other st)
      ∧ getChangeAddress (core db') other = getChangeAddress (core db) other
      ∧ ∀ scripts mode,
          getByWalletIdAndScripts (core db') other scripts mode
          = getByWalletIdAndScripts (core db) other scripts mode.
Proof.
  intros db'.
  assert (getById (core db') walletId = None) as Hgone.
  { unfold getById. apply first_filter_None. simpl.
    intros (w & Hin & Hw). apply list_elem_of_filter in Hin. tauto. }
  assert (∀ other, other ≠ walletId →
            getById (core db') other = getById (core db) other) as Hkeep.
  { intros other Hne. unfold getById. simpl. f_equal.
    apply filter_filter_implied. intros w. congruence. }
  split_and!.
  - done.
  - unfold getByWalletId. simpl.
    assert (filter (λ a, a_walletId a = walletId)
              (filter (λ a, a_walletId a ≠ walletId) (addresses (core db))) = [])
      as ->; [|done].
    apply head_None, (first_filter_None (λ a, a_walletId a = walletId)).
    intros (a & Hin & Ha). apply list_elem_of_filter in Hin. tauto.
  - unfold getChangeAddress. by rewrite Hgone.
  - apply Forall_forall. intros a Ha. apply list_elem_of_filter in Ha. tauto.
  - apply Forall_forall. intros a Ha. apply list_elem_of_filter in Ha. tauto.
  - apply Forall_forall. intros a Ha. apply list_elem_of_filter in Ha. tauto.
  - intros other Hne. split_and!.
    + by apply Hkeep.
    + unfold getByWalletId. simpl. f_equal.
      apply filter_filter_implied. intros a. congruence.
    + intros st. unfold getByState. simpl.
      apply filter_orderBy_filter. intros a [? _]. congruence.
    + unfold getChangeAddress. rewrite Hkeep by done.
      destruct (getById (core db) other) as [wallet|] eqn:Hw; [|done].
      apply getById_id in Hw. unfold _getChangeAddress. simpl.
      rewrite !filter_orderBy_filter by (intros a; try intros [? _]; congruence).
      rewrite (filter_filter_implied
                 (λ a, a_walletId a = w_id wallet
                       ∧ a_index a = defaultChangeIndex (w_settings wallet)))
        by (intros a [? _]; congruence).
      done.
    + intros scripts mode. unfold getByWalletIdAndScripts. simpl.
      rewrite !list_filter_filter.
      rewrite (list_filter_iff
                 (λ a, (a_walletId a = other ∧ a_script a ∈ scripts)
                       ∧ a_walletId a ≠ walletId)
                 (λ a, a_walletId a = other ∧ a_script a ∈ scripts));
        [done|].
      intros a. split; [tauto|]. intros [? ?]. split; [done|congruence].
Qed.

End DbMoreFacts.

(** * More facts about the output interpreter *)

Section InterpreterMoreFacts.
Context `{K : ErgoConstants} `{S : Sdk}.

Lemma buildBabelSwapAssetsList_flags box inputs metadata :
  isBabelBoxSwap box inputs = true →
  Forall (λ a, oa_minting a = false) (buildBabelSwapAssetsList box inputs metadata).
Proof.
  intros [_ Hsome]%andb_true_iff. apply bool_decide_eq_true in Hsome as [input Hfind].
  unfold buildBabelSwapAssetsList. rewrite Hfind.
  apply Forall_app. split; [|by repeat constructor].
  apply Forall_fmap, Forall_forall. done.
Qed.

Lemma getMintingToken_flagged box inputs m :
  getMintingToken box inputs = Some m → oa_minting m = true →
  ∃ first rest token,
    inputs = first :: rest ∧ boxId first ≠ EmptyString
    ∧ token ∈ c_assets box ∧ tokenId token = boxId first
    ∧ oa_tokenId m = boxId first
    ∧ c_additionalRegisters box ≠ ∅.
Proof.
  unfold getMintingToken. destruct inputs as [|first rest]; [done|]. simpl.
  destruct (decide (boxId first = EmptyString)); [done|].
  destruct (js_find _ (c_assets box)) as [token|] eqn:Hfind; [|done].
  apply js_find_Some in Hfind as (before & after & Hsplit & Htoken & _).
  destruct (decide (c_additionalRegisters box = ∅)).
  - by intros [= <-].
  - intros [= <-] _. exists first, rest, token. split_and!; try done.
    rewrite Hsplit. apply elem_of_app. right. left.
Qed.

(** X7: an interpreter reports minting exactly when the box is no swap
    settlement, the first input has a box id, the box carries a token
    named after it, and the box has registers. *)
Theorem isMinting_iff
    (box : ErgoBoxCandidate) (inputs : list Box)
    (metadata : gmap string BasicAssetMetadata) (addresses : option (list string)) :
  isMinting (new_OutputInterpreter box inputs metadata addresses) = true
  ↔ isBabelBoxSwap box inputs = false
    ∧ ∃ first rest token,
        inputs = first :: rest ∧ boxId first ≠ EmptyString
        ∧ token ∈ c_assets box ∧ tokenId token = boxId first
        ∧ c_additionalRegisters box ≠ ∅.
Proof.
  unfold isMinting, new_OutputInterpreter. simpl. split.
  - intros Hmint. destruct (isBabelBoxSwap box inputs) eqn:Hswap.
    + rewrite no_minting_flag in Hmint; [done|].
      by apply buildBabelSwapAssetsList_flags.
    + split; [done|].
      destruct (getMintingToken box inputs) as [m|] eqn:Hget.
      * destruct (oa_minting m) eqn:Hflag.
        -- destruct (getMintingToken_flagged _ _ _ Hget Hflag)
             as (first & rest & token & ? & ? & ? & ? & _ & ?).
           by exists first, rest, token.
        -- rewrite no_minting_flag in Hmint; [done|].
           apply buildSendingAssetsList_flags. intros m'. rewrite Hget.
           by intros [= <-].
      * rewrite no_minting_flag in Hmint; [done|].
        apply buildSendingAssetsList_flags. intros m'. by rewrite Hget.
  - intros (-> & first & rest & token & -> & Hid & Hin & Htoken & Hregs).
    apply bool_decide_eq_true.
    assert (∃ carried, js_find (λ b, tokenId b = boxId first) (c_assets box) = Some carried)
      as [carried Hfind].
    { destruct (js_find _ (c_assets box)) as [c|] eqn:E; [by exists c|].
      exfalso. eapply js_find_None in E; eauto. }
    unfold buildSendingAssetsList, getMintingToken. simpl.
    rewrite decide_False by done. rewrite Hfind, decide_False by done.
    apply js_find_Some in Hfind as (before & after & Hsplit & Hcarried & _).
    destruct (c_assets box) as [|t l] eqn:Hassets; [by apply elem_of_nil in Hin|].
    set (minted := {| oa_tokenId := tokenId carried; oa_minting := true |}).
    destruct (list_find (λ t0, oa_tokenId t0 = oa_tokenId minted)
                (sending_asset metadata <$> t :: l)) as [[index found]|] eqn:Hlf.
    + apply list_find_Some in Hlf as (Hlookup & _ & _).
      assert (minted ∈ erg_asset (decimalize (bn (c_value box)) (Some ERG_DECIMALS))
                       :: <[index:=minted]> (sending_asset metadata <$> t :: l)) as Hm.
      { right. apply list_elem_of_lookup. exists index.
        apply list_lookup_insert_eq. by eapply lookup_lt_Some. }
      destruct (js_find (λ a, oa_minting a = true) _) as [a|] eqn:E; [by eexists|].
      exfalso. eapply js_find_None in E; [|exact Hm]. by apply E.
    + exfalso. apply list_find_None in Hlf.
      assert (sending_asset metadata carried ∈ sending_asset metadata <$> t :: l) as Hc.
      { apply list_elem_of_fmap_2. rewrite Hsplit. apply elem_of_app. right. left. }
      eapply Forall_forall in Hlf; [|exact Hc]. by apply Hlf.
Qed.

Lemma filter_all_false {A} (P : A → Prop) `{∀ x, Decision (P x)} (l : list A) :
  Forall (λ x, ¬ P x) l → filter P l = [].
Proof.
  induction 1 as [|x l Hx _ IH]; [done|]. by rewrite filter_cons_False.
Qed.

(** X8: for a box that is no swap settlement the interpreter lists the
    native currency first, with the box value over [10^ERG_DECIMALS], and
    then one entry for each asset of the box, in the order and under the
    token ids of the box; at most one entry carries the minting flag. *)
Theorem transfer_lists_native_then_every_token
    (box : ErgoBoxCandidate) (inputs : list Box)
    (metadata : gmap string BasicAssetMetadata) (addresses : option (list string)) :
  isBabelBoxSwap box inputs = false →
  let reported := _assets (new_OutputInterpreter box inputs metadata addresses) in
  oa_tokenId <$> reported = ERG_TOKEN_ID :: (tokenId <$> c_assets box)
  ∧ (∃ native, head reported = Some native
               ∧ (oa_amount native * 10 ^ ERG_DECIMALS == bn (c_value box))%Q)
  ∧ (length (filter (λ a, oa_minting a = true) reported) ≤ 1)%nat.
Proof.
  intros Hswap. unfold new_OutputInterpreter. simpl. rewrite Hswap.
  unfold buildSendingAssetsList.
  destruct (c_assets box) as [|t l] eqn:Hassets.
  - split_and!; [done| |simpl; lia].
    eexists. split; [done|]. apply decimalize_scaled.
  - set (tokens := sending_asset metadata <$> t :: l).
    assert (oa_tokenId <$> tokens = tokenId <$> t :: l) as Hids.
    { unfold tokens. rewrite <- list_fmap_compose. done. }
    assert (Forall (λ a, ¬ oa_minting a = true) tokens) as Hflags.
    { unfold tokens. apply Forall_fmap, Forall_forall. done. }
    destruct (getMintingToken box inputs) as [minting|]; cycle 1.
    { split_and!.
      - rewrite fmap_app, Hids. done.
      - eexists. split; [done|]. apply decimalize_scaled.
      - simpl. rewrite filter_cons_False by done.
        rewrite filter_all_false by done. simpl. lia. }
    destruct (list_find _ tokens) as [[index found]|] eqn:Hlf; cycle 1.
    { split_and!.
      - rewrite fmap_app, Hids. done.
      - eexists. split; [done|]. apply decimalize_scaled.
      - simpl. rewrite filter_cons_False by done.
        rewrite filter_all_false by done. simpl. lia. }
    apply list_find_Some in Hlf as (Hlookup & Hsame & _).
    split_and!.
    + rewrite fmap_app, list_fmap_insert, <- Hids.
      rewrite (list_insert_id (oa_tokenId <$> tokens) index (oa_tokenId minting));
        [done|].
      by rewrite list_lookup_fmap, Hlookup, <- Hsame.
    + eexists. split; [done|]. apply decimalize_scaled.
    + simpl. rewrite filter_cons_False by done.
      rewrite insert_take_drop by (by eapply lookup_lt_Some).
      rewrite filter_app, filter_cons.
      rewrite !filter_all_false.
      * destruct (decide _); simpl; lia.
      * by apply Forall_drop.
      * by apply Forall_take.
Qed.

End InterpreterMoreFacts.

(** * More facts about the builders *)

Section BuilderMoreFacts.
Context `{K : ErgoConstants} `{S : Sdk} `{B : BabelFees}.

Lemma mapM_Ok {X Y} (f : X → Result Y) (l : list X) (k : list Y) :
  mapM f l = Ok k → Forall2 (λ x y, f x = Ok y) l k.
Proof.
  revert k. induction l as [|x l IH]; simpl; intros k.
  - intros [= <-]. constructor.
  - intros (y & Hy & (k' & Hk' & [= <-])%bind_Ok)%bind_Ok.
    constructor; [done|by apply IH].
Qed.

(** The steps of a payment build that reaches [build]. *)
Lemma createP2PTransaction_unsigned_Ok env recipient assets fee walletType unsigned fee' :
  createP2PTransaction_unsigned env recipient assets fee walletType = (Ok unsigned, fee') →
  ∃ ctx b1 n tokens,
    getContext env = Ok ctx
    ∧ from (inputs ctx) false (new_TransactionBuilder (currentHeight ctx)) = Ok b1
    ∧ (if Qeq_bool (getSendingNanoErgs assets) 0
          && bool_decide (fee_tokenId fee ≠ ERG_TOKEN_ID)
       then Ok MIN_BOX_VALUE else toBigInt (getSendingNanoErgs assets)) = Ok n
    ∧ mapM to_token (filter sending_token assets) = Ok tokens
    ∧ let u0 :=
        sendChangeTo (safeGetChangeAddress env)
          (to {| o_value := n; o_recipient := recipient; o_tokens := tokens |} b1) in
      ended (setFee env u0 fee) = Ok ()
      ∧ unsigned = setSelectionAndChangeStrategy (builder_after (setFee env u0 fee)) walletType
      ∧ fee' = fee_after (setFee env u0 fee).
Proof.
  unfold createP2PTransaction_unsigned.
  destruct (_ ← getContext env; _) as [b|] eqn:Hprep; [|done].
  intros [= Hend Hfee].
  apply bind_Ok in Hend as ([] & Hend & [= <-]).
  apply bind_Ok in Hprep
    as (ctx & Hctx & (b1 & H1 & (n & Hn & (tokens & Htok & [= <-])%bind_Ok)%bind_Ok)%bind_Ok).
  exists ctx, b1, n, tokens. split_and!; done.
Qed.

Lemma setFee_native env b fee :
  fee_tokenId fee = ERG_TOKEN_ID →
  setFee env b fee = payFee_end (undecimalize (fee_value fee) (Some ERG_DECIMALS)) b fee.
Proof. intros Hnative. unfold setFee. by rewrite bool_decide_false by (by intros ?). Qed.

(** X9: a payment whose fee is in the native asset yields a draft with
    the single payment output, to the recipient and of the native value
    asked for, pays the fee entered times [10^ERG_DECIMALS], and leaves the
    fee settings as they were: no swap box is recorded. *)
Theorem native_fee_payment_has_no_swap
    (env : Env) (recipient : string) (assets : list TxAssetAmount) (fee fee' : FeeSettings)
    (walletType : WalletType) (draft : EIP12UnsignedTransaction) :
  fee_tokenId fee = ERG_TOKEN_ID →
  createP2PTransaction env recipient assets fee walletType = (Ok draft, fee') →
  fee' = fee
  ∧ ∃ payment paid,
      tx_payments draft = [payment]
      ∧ o_recipient payment = recipient
      ∧ (bn (o_value payment) == getSendingNanoErgs assets)%Q
      ∧ tx_fee draft = Some paid
      ∧ (bn paid == undecimalize (fee_value fee) (Some ERG_DECIMALS))%Q.
Proof.
  intros Hnative. unfold createP2PTransaction.
  destruct (createP2PTransaction_unsigned _ _ _ _ _) as [[unsigned|] f] eqn:Hu; [|done].
  simpl. intros [= Hbuild ->].
  apply createP2PTransaction_unsigned_Ok in Hu
    as (ctx & b1 & n & tokens & _ & H1 & Hn & _ & Hend & -> & ->).
  rewrite bool_decide_false, andb_false_r in Hn by (by intros ?).
  apply toBigInt_Ok in Hn. apply from_settings in H1 as (_ & _ & Ho1 & _ & Hp1).
  rewrite setFee_native in Hend, Hbuild |- * by done.
  unfold payFee_end in *.
  destruct (payFee _ _) as [b2|] eqn:Hpay; [|done].
  apply payFee_settings in Hpay as (_ & _ & Ho2 & _ & _ & Hp2 & paid & Hpaid & Hfee).
  apply toBigInt_Ok in Hpaid. simpl. split; [done|].
  destruct (setSelectionAndChangeStrategy_frame b2 walletType) as (_ & _ & Ho3 & Hf3 & Hp3).
  unfold build in Hbuild. simpl in Hbuild.
  rewrite Hp3, Hp2, Ho3, Ho2, Hf3, Hfee in Hbuild. simpl in Hbuild.
  rewrite Hp1, Ho1 in Hbuild. simpl in Hbuild.
  destruct (selectInputs _ _ _ _ _) as [picks|]; [|done].
  apply bind_Ok in Hbuild as (change & _ & [= <-]). simpl.
  eexists _, paid. split_and!; done.
Qed.

Lemma setFee_babel_plugin env b fee :
  fee_tokenId fee ≠ ERG_TOKEN_ID →
  ended (setFee env b fee) = Ok () →
  ∃ box,
    fee_after (setFee env b fee) = set_box fee box
    ∧ tb_plugins (builder_after (setFee env b fee))
      = tb_plugins b
        ++ [BabelSwapPlugin box (fee_tokenId fee)
              (undecimalize (fee_value fee) (fee_assetInfo fee ≫= md_decimals))].
Proof.
  intros Hbabel. unfold setFee. rewrite bool_decide_true by done.
  destruct (fetchBabelBoxes env _ _) as [boxes|]; [|done].
  destruct (selectBestBabelBox boxes _) as [box|] eqn:Hsel; [|done].
  intros Hend. exists box.
  destruct (_ && _); simpl in *.
  all: match goal with
       | |- context [payFee_end ?q ?b' ?f] =>
           destruct (payFee_end_frame q b' f) as (_ & -> & -> & _)
       end.
  all: done.
Qed.

(** X10: a payment whose fee is in another asset yields a draft with the
    payment output followed by one output that returns the recorded swap
    box to its own script; that box is among the inputs, and the native
    value it gives up is the fee paid, or the fee paid plus the protocol
    minimum when the payment output is funded from it. *)
Theorem swap_fee_payment_draft
    (env : Env) (recipient : string) (assets : list TxAssetAmount) (fee fee' : FeeSettings)
    (walletType : WalletType) (draft : EIP12UnsignedTransaction) :
  fee_tokenId fee ≠ ERG_TOKEN_ID →
  createP2PTransaction env recipient assets fee walletType = (Ok draft, fee') →
  ∃ box payment swapped paid,
    fee_box fee' = Some box
    ∧ tx_payments draft = [payment; swapped]
    ∧ o_recipient payment = recipient
    ∧ box ∈ tx_inputs draft
    ∧ o_recipient swapped = ergoTree box
    ∧ tx_fee draft = Some paid
    ∧ ((bn (value box - o_value swapped) == bn paid)%Q
       ∨ (bn (value box - o_value swapped) == bn paid + bn MIN_BOX_VALUE)%Q).
Proof.
  intros Hbabel. unfold createP2PTransaction.
  destruct (createP2PTransaction_unsigned _ _ _ _ _) as [[unsigned|] f] eqn:Hu; [|done].
  simpl. intros [= Hbuild ->].
  apply createP2PTransaction_unsigned_Ok in Hu
    as (ctx & b1 & n & tokens & _ & H1 & _ & _ & Hend & -> & ->).
  apply from_settings in H1 as (_ & _ & Ho1 & _ & Hp1).
  match type of Hend with ended (setFee _ ?u _) = _ => set (u0 := u) in * end.
  destruct (setFee_babel_plugin env u0 fee Hbabel Hend) as (box & Hafter & Hplug).
  destruct (setFee_babel_Ok env u0 fee Hbabel Hend)
    as (boxes & sel & paid & _ & _ & Hafter' & Hout & Hpaid & Hval).
  rewrite Hafter in Hafter'. injection Hafter' as <-.
  destruct (setSelectionAndChangeStrategy_frame (builder_after (setFee env u0 fee)) walletType)
    as (_ & _ & Ho3 & Hf3 & Hp3).
  unfold build in Hbuild. rewrite Hp3, Hplug, Ho3, Hout, Hf3, Hpaid in Hbuild.
  subst u0. simpl in Hbuild. rewrite Hp1, Ho1 in Hbuild. simpl in Hbuild.
  apply bind_Ok in Hbuild as (ios & Hios & Hbuild).
  apply bind_Ok in Hios as (io & Hio & Hios).
  injection Hios as <-.
  match goal with
  | _ : context [toBigInt ?q ≫= _] |- _ => idtac
  | _ => idtac
  end.
  assert (runPlugin (BabelSwapPlugin box (fee_tokenId fee)
            (undecimalize (fee_value fee) (fee_assetInfo fee ≫= md_decimals))) = Ok io)
    as Hrun by exact Hio.
  apply runPlugin_Ok in Hrun as (Hin & Hrec & Hgiven & _).
  simpl in Hbuild.
  destruct (selectInputs _ _ _ _ _) as [picks|]; [|done].
  apply bind_Ok in Hbuild as (change & _ & [= <-]). simpl.
  exists box, {| o_value := n; o_recipient := recipient; o_tokens := tokens |}, io.2, paid.
  rewrite Hafter. split_and!; try done.
  - rewrite Hin. apply elem_of_app. left. apply elem_of_app. right. left.
  - rewrite Hgiven, Hval. destruct (_ && _); [right; ring|by left].
Qed.

Lemma to_token_Ok a t :
  to_token a = Ok t →
  tokenId t = sa_tokenId (asset a)
  ∧ (bn (amount t)
     == undecimalize (default (bn 0) (ta_amount a)) (sa_metadata (asset a) ≫= md_decimals))%Q.
Proof.
  unfold to_token. intros (z & Hz%toBigInt_Ok & [= <-])%bind_Ok. done.
Qed.

Lemma tokens_of_assets (l : list TxAssetAmount) (ts : list Token) :
  Forall2 (λ x y, to_token x = Ok y) l ts →
  Forall sending_token l →
  Forall2
    (λ a t, tokenId t = sa_tokenId (asset a)
            ∧ ∃ requested, ta_amount a = Some requested
                ∧ (bn (amount t)
                   == undecimalize requested (sa_metadata (asset a) ≫= md_decimals))%Q)
    l ts
  ∧ Forall (λ t, tokenId t ≠ ERG_TOKEN_ID ∧ amount t ≠ 0) ts.
Proof.
  induction 1 as [|a t l ts Hat _ IH]; intros Hsend; [by split; constructor|].
  apply Forall_cons in Hsend as [(Hne & requested & Hreq & Hnz) Hsend].
  apply to_token_Ok in Hat as [Hid Hamt]. rewrite Hreq in Hamt. simpl in Hamt.
  destruct (IH Hsend) as [IH1 IH2].
  split; constructor; try done.
  - split; [done|]. by exists requested.
  - split; [by rewrite Hid|]. intros Hz. rewrite Hz in Hamt.
    assert (requested == 0)%Q as Hzero.
    { destruct (sa_metadata (asset a) ≫= md_decimals) as [d|]; simpl in Hamt.
      - destruct (Qmult_integral _ _ (Qeq_sym _ _ Hamt)) as [?|Hp]; [done|].
        by apply pow10_not_0 in Hp.
      - by symmetry. }
    apply Qeq_bool_iff in Hzero. congruence.
Qed.

(** X11: the payment output lists one token for each asset asked for
    that is not the native one and has a non-zero amount, in the order
    given, with the amount times [10^decimals]; it lists neither the native
    asset nor a zero amount. *)
Theorem payment_output_tokens
    (env : Env) (recipient : string) (assets : list TxAssetAmount) (fee fee' : FeeSettings)
    (walletType : WalletType) (unsigned : TransactionBuilder) :
  createP2PTransaction_unsigned env recipient assets fee walletType = (Ok unsigned, fee') →
  ∃ payment,
    tb_outputs unsigned = [payment]
    ∧ Forall2
        (λ a t, tokenId t = sa_tokenId (asset a)
                ∧ ∃ requested, ta_amount a = Some requested
                    ∧ (bn (amount t)
                       == undecimalize requested (sa_metadata (asset a) ≫= md_decimals))%Q)
        (filter sending_token assets) (o_tokens payment)
    ∧ Forall (λ t, tokenId t ≠ ERG_TOKEN_ID ∧ amount t ≠ 0) (o_tokens payment).
Proof.
  intros (ctx & b1 & n & tokens & _ & H1 & _ & Htok & _ & -> & _)
    %createP2PTransaction_unsigned_Ok.
  apply from_settings in H1 as (_ & _ & Ho1 & _).
  match goal with
  | |- context [setFee env ?u fee] =>
      destruct (setFee_frame env u fee) as (_ & _ & Hout & _)
  end.
  destruct (setSelectionAndChangeStrategy_frame
              (builder_after (setFee env
                 (sendChangeTo (safeGetChangeAddress env)
                    (to {| o_value := n; o_recipient := recipient; o_tokens := tokens |} b1))
                 fee)) walletType)
    as (_ & _ & -> & _).
  rewrite Hout. simpl. rewrite Ho1. simpl. eexists. split; [done|]. simpl.
  apply tokens_of_assets; [by apply mapM_Ok|].
  apply Forall_forall. intros a Ha. apply list_elem_of_filter in Ha. tauto.
Qed.

Lemma add_inputs_NoDup new old :
  NoDup (boxId <$> old ++ new) → add_inputs new old = Ok (old ++ new).
Proof.
  revert old. induction new as [|b new IH]; simpl; intros old Hnd.
  - by rewrite app_nil_r.
  - rewrite fmap_app in Hnd. apply NoDup_app in Hnd as (Hold & Hdisj & Hnew).
    rewrite decide_False.
    + rewrite IH; [by rewrite <- app_assoc|].
      rewrite <- app_assoc, fmap_app. apply NoDup_app. done.
    + intros Hin. apply (Hdisj _ Hin). simpl. left.
Qed.

(** X12: when the unspent outputs fetched still list inputs of the
    original transaction, the cancellation builder takes each box once: its
    inputs are the own inputs followed by the fetched boxes with another
    id, no id twice, and the build reaches [build]. *)
Theorem cancellation_takes_each_box_once
    (env : Env) (tx : UnconfirmedTransactionSummary) (ctx : Context) (fee : Z) :
  getContext env = Ok ctx →
  NoDup (boxId <$> ownInputs tx) →
  NoDup (boxId <$> inputs ctx) →
  toBigInt (undecimalize (ut_fee tx) (Some ERG_DECIMALS) + bn SAFE_MIN_FEE_VALUE)%Q = Ok fee →
  ∃ unsigned,
    createRBFCancellationTransaction_unsigned env tx = Ok unsigned
    ∧ tb_inputs unsigned
      = ownInputs tx
        ++ filter (λ input, boxId input ∉ (boxId <$> ownInputs tx)) (inputs ctx)
    ∧ NoDup (boxId <$> tb_inputs unsigned)
    ∧ tb_feeAmount unsigned = Some fee.
Proof.
  intros Hctx Hown Hfetched Hfee.
  set (others := filter (λ input, boxId input ∉ (boxId <$> ownInputs tx)) (inputs ctx)).
  assert (filter (λ input : Box,
                    boxId input ∉ (list_to_set (boxId <$> ownInputs tx) : gset string))
            (inputs ctx) = others) as Hothers.
  { apply list_filter_iff. intros b. by rewrite elem_of_list_to_set. }
  assert (NoDup (boxId <$> ownInputs tx ++ others)) as Hall.
  { rewrite fmap_app. apply NoDup_app. split_and!; [done| |].
    - intros id Hin (b & -> & Hb)%list_elem_of_fmap.
      apply list_elem_of_filter in Hb. tauto.
    - apply (sublist_NoDup _ (boxId <$> inputs ctx)); [done|].
      apply fmap_sublist, sublist_filter. }
  unfold createRBFCancellationTransaction_unsigned. rewrite Hctx. simpl.
  unfold from at 2. simpl. rewrite (add_inputs_NoDup (ownInputs tx) []) by done. simpl.
  unfold from. simpl. rewrite Hothers, add_inputs_NoDup by done. simpl.
  unfold payFee. simpl in Hfee. rewrite Hfee. simpl. eexists. split; [done|].
  destruct (setSelectionAndChangeStrategy_frame
              (sendChangeTo (safeGetChangeAddress env)
                 {| tb_creationHeight := currentHeight ctx;
                    tb_inputs := ownInputs tx ++ others;
                    tb_ensureInclusion := ∅ ∪ list_to_set (boxId <$> ownInputs tx);
                    tb_outputs := [];
                    tb_feeAmount := Some fee;
                    tb_changeAddress := None;
                    tb_settings :=
                      {| maxTokensPerChangeBox := None; isolateErgOnChange := false |};
                    tb_selector := {| strategy := None; ordering := None |};
                    tb_plugins := [] |}) (ws_type (wallet env)))
    as (Hi & _ & _ & Hf & _).
  simpl in Hi, Hf. rewrite Hi, Hf. done.
Qed.

End BuilderMoreFacts.

(** * Facts about the fee selector *)

Section FeeConfigFacts.
Import FeeConfig.
Context `{K : ErgoConstants} `{D : BigNumberDiv} `{B : BabelFees}.

Lemma Qfloor_ratio (a b : Z) (q : Q) :
  (q == inject_Z a / inject_Z b)%Q → Qfloor q = a / b.
Proof. intros ->. symmetry. apply Zdiv_Qdiv. Qed.

Lemma Qceiling_ratio (a b : Z) (q : Q) :
  b ≠ 0 → (q == inject_Z a / inject_Z b)%Q → Qceiling q = - ((- a) / b).
Proof.
  intros Hb Hq. unfold Qceiling. f_equal. apply Qfloor_ratio.
  rewrite Hq, inject_Z_opp. field.
  intros Hz. apply Hb. change 0%Q with (inject_Z 0) in Hz.
  by apply (proj1 (inject_Z_injective _ _)) in Hz.
Qed.

(** Rounding the quotient of two whole numbers away from zero gives its
    ceiling, whatever [div] did on the way, as long as the divisor has no
    more digits than [div] keeps decimals. *)
Lemma round_up_div (x y : Q) (n r : Z) :
  0 < n → 0 < r → r ≤ 10 ^ Z.of_nat DECIMAL_PLACES →
  ¬ (y == 0)%Q → (x / y == inject_Z n / inject_Z r)%Q →
  integerValue_ROUND_UP (div x y) = bn ((n + r - 1) / r).
Proof.
  intros Hn Hr Hdigits Hy Hq.
  set (Sz := 10 ^ Z.of_nat DECIMAL_PLACES) in *.
  set (c := (n + r - 1) / r).
  assert ((c - 1) * r < n ∧ n ≤ c * r) as [Hc1 Hc2].
  { unfold c. pose proof (Z.div_mod (n + r - 1) r ltac:(lia)).
    pose proof (Z.mod_pos_bound (n + r - 1) r Hr). nia. }
  assert (¬ (inject_Z r == 0)%Q) as Hr0.
  { change 0%Q with (inject_Z 0). rewrite inject_Z_injective. lia. }
  assert (x / y * inject_Z Sz == inject_Z (n * Sz) / inject_Z r)%Q as Hscaled.
  { rewrite Hq, inject_Z_mult. by field. }
  destruct (div_rounds x y Hy) as [Hlo Hhi]. fold Sz in Hlo, Hhi.
  rewrite (Qfloor_ratio (n * Sz) r) in Hlo by done.
  rewrite (Qceiling_ratio (n * Sz) r) in Hhi by (done || lia).
  assert ((c - 1) * Sz + 1 ≤ n * Sz / r) as Hfloor
    by (apply Z.div_le_lower_bound; nia).
  assert (- (- (n * Sz) / r) ≤ c * Sz) as Hceil.
  { assert (- (c * Sz) ≤ - (n * Sz) / r); [|lia].
    apply Z.div_le_lower_bound; nia. }
  rewrite Zle_Qle in Hfloor, Hceil.
  rewrite inject_Z_plus, !inject_Z_mult in Hfloor.
  change (inject_Z 1) with 1%Q in Hfloor.
  rewrite inject_Z_mult in Hceil.
  assert (0 < inject_Z Sz)%Q as HS.
  { change 0%Q with (inject_Z 0). rewrite <- Zlt_Qlt. lia. }
  set (d := div x y) in *.
  assert (inject_Z (c - 1) < d)%Q as Hlow.
  { apply (Qmult_lt_r _ _ (inject_Z Sz) HS).
    eapply Qlt_le_trans; [|exact Hlo].
    eapply Qlt_le_trans; [|exact Hfloor].
    generalize (inject_Z (c - 1) * inject_Z Sz)%Q. intros. lra. }
  assert (d <= inject_Z c)%Q as Hhigh.
  { apply (Qmult_le_r _ _ (inject_Z Sz) HS).
    eapply Qle_trans; [exact Hhi|exact Hceil]. }
  assert (Qceiling d = c) as Hceiling.
  { apply Z.le_antisymm.
    - rewrite <- (Qceiling_Z c). by apply Qceiling_resp_le.
    - pose proof (Qle_ceiling d) as Hup.
      assert (inject_Z (c - 1) < inject_Z (Qceiling d))%Q as Hlt
        by (eapply Qlt_le_trans; done).
      rewrite <- Zlt_Qlt in Hlt. lia. }
  unfold integerValue_ROUND_UP.
  assert (Qle_bool 0 d = true) as ->; [|by rewrite Hceiling].
  apply Qle_bool_iff, Qlt_le_weak. eapply Qle_lt_trans; [|exact Hlow].
  change 0%Q with (inject_Z 0). rewrite <- Zle_Qle. nia.
Qed.

Lemma inject_Z_not_0 (z : Z) : z ≠ 0 → ¬ (inject_Z z == 0)%Q.
Proof. intros Hz. change 0%Q with (inject_Z 0). by rewrite inject_Z_injective. Qed.

Lemma Qeq_bool_false (q : Q) (z : Z) :
  (q == inject_Z z)%Q → z ≠ 0 → Qeq_bool q 0 = false.
Proof.
  intros Hq Hz. destruct (Qeq_bool q 0) eqn:E; [|done].
  apply Qeq_bool_iff in E. rewrite Hq in E. by apply inject_Z_not_0 in E.
Qed.

(** X13: [getTokenUnitsFor] answers zero for a zero amount or a zero
    rate; for a positive whole amount and a positive whole rate with no
    more digits than [div] keeps decimals, it answers the least whole
    number of tokens worth at least the amount. *)
Theorem getTokenUnitsFor_rounds_up (st : State) (nanoErgs : BigNumber) (n r : Z) :
  (nanoErgs == inject_Z n)%Q →
  (fa_nanoErgsPerToken (intSelected st) == inject_Z r)%Q →
  r ≤ 10 ^ Z.of_nat DECIMAL_PLACES →
  (n = 0 ∨ r = 0 → getTokenUnitsFor st nanoErgs = bn 0)
  ∧ (0 < n → 0 < r →
     ∃ u, getTokenUnitsFor st nanoErgs = bn u ∧ (u - 1) * r < n ∧ n ≤ u * r).
Proof.
  intros Hn Hr Hdigits. unfold getTokenUnitsFor. split.
  - intros [-> | ->].
    + by rewrite (proj2 (Qeq_bool_iff nanoErgs 0) Hn).
    + rewrite (proj2 (Qeq_bool_iff (fa_nanoErgsPerToken _) 0) Hr). by rewrite orb_true_r.
  - intros Hn0 Hr0.
    rewrite (Qeq_bool_false _ n), (Qeq_bool_false _ r) by (done || lia). simpl.
    exists ((n + r - 1) / r). split.
    + apply round_up_div; try done.
      * rewrite Hr. apply inject_Z_not_0. lia.
      * by rewrite Hn, Hr.
    + pose proof (Z.div_mod (n + r - 1) r ltac:(lia)).
      pose proof (Z.mod_pos_bound (n + r - 1) r Hr0). nia.
Qed.

(** X14: at every multiplier the fee in tokens is worth at least the fee
    in the native asset at the selected rate, and exceeds it by less than
    one token for each step of the multiplier. *)
Theorem token_fee_covers_native_fee (st : State) (r : Z) :
  (fa_nanoErgsPerToken (intSelected st) == inject_Z r)%Q →
  0 < r → r ≤ 10 ^ Z.of_nat DECIMAL_PLACES →
  0 < SAFE_MIN_FEE_VALUE →
  0 ≤ multiplier st →
  (nanoErgsFee st <= tokenUnitsFee st * fa_nanoErgsPerToken (intSelected st))%Q
  ∧ (tokenUnitsFee st * fa_nanoErgsPerToken (intSelected st)
     <= nanoErgsFee st + inject_Z ((r - 1) * multiplier st))%Q.
Proof.
  intros Hr Hr0 Hdigits Hfee Hm.
  destruct (getTokenUnitsFor_rounds_up st BN_MIN_ERG_FEE SAFE_MIN_FEE_VALUE r)
    as [_ Hup]; [done..|].
  destruct (Hup Hfee Hr0) as (u & Hu & Hlo & Hhi).
  unfold tokenUnitsFee, nanoErgsFee, minTokenFee. rewrite Hu, Hr.
  unfold BN_MIN_ERG_FEE, bn. rewrite <- !inject_Z_mult, <- inject_Z_plus, <- !Zle_Qle. nia.
Qed.

Lemma undecimalize_decimalize (v : BigNumber) (decimals : option Z) :
  (undecimalize (decimalize v (Some (default 0%Z decimals))) decimals == v)%Q.
Proof.
  destruct decimals as [d|]; simpl.
  - field. apply pow10_not_0.
  - field.
Qed.

(** X15: a fee in tokens emitted by the selector reaches the swap plugin
    as the whole number of token units the selector computed, and against
    a box that trades at the selected rate or better it is worth at least
    the native fee of the same multiplier. *)
Theorem emitted_token_fee_is_swapped_in_whole_units
    (env : Env) (builder : TransactionBuilder) (st : State) (r : Z) :
  fa_tokenId (intSelected st) ≠ ERG_TOKEN_ID →
  ended (setFee env builder (emitSelected st)) = Ok () →
  (fa_nanoErgsPerToken (intSelected st) == inject_Z r)%Q →
  0 < r → r ≤ 10 ^ Z.of_nat DECIMAL_PLACES →
  0 < SAFE_MIN_FEE_VALUE →
  0 ≤ multiplier st →
  ∃ box amount,
    fee_box (fee_after (setFee env builder (emitSelected st))) = Some box
    ∧ tb_plugins (builder_after (setFee env builder (emitSelected st)))
      = tb_plugins builder ++ [BabelSwapPlugin box (fa_tokenId (intSelected st)) amount]
    ∧ (amount == tokenUnitsFee st)%Q
    ∧ ((fa_nanoErgsPerToken (intSelected st) <= getNanoErgsPerTokenRate box)%Q →
       (nanoErgsFee st <= amount * getNanoErgsPerTokenRate box)%Q).
Proof.
  intros Hbabel Hend Hr Hr0 Hdigits Hfee Hm.
  destruct (setFee_babel_plugin env builder (emitSelected st) Hbabel Hend)
    as (box & -> & ->).
  eexists box, _. split_and!; [done|done| |].
  - simpl. unfold feeAmount. rewrite decide_False by done.
    apply undecimalize_decimalize.
  - intros Hrate. simpl. unfold feeAmount. rewrite decide_False by done.
    rewrite undecimalize_decimalize.
    destruct (token_fee_covers_native_fee st r) as [Hcover _]; [done..|].
    eapply Qle_trans; [exact Hcover|].
    apply Qmult_le_compat_nonneg.
    + split; [|apply Qle_refl].
      destruct (getTokenUnitsFor_rounds_up st BN_MIN_ERG_FEE SAFE_MIN_FEE_VALUE r)
        as [_ Hup]; [done..|].
      destruct (Hup Hfee Hr0) as (u & Hu & Hlo & Hhi).
      unfold tokenUnitsFee, minTokenFee. rewrite Hu. unfold bn.
      rewrite <- inject_Z_mult. change 0%Q with (inject_Z 0). rewrite <- Zle_Qle. nia.
    + split; [|done]. rewrite Hr.
      change 0%Q with (inject_Z 0). rewrite <- Zle_Qle. lia.
Qed.

Lemma Qred_inject_Z (z : Z) : Qred (inject_Z z) = inject_Z z.
Proof.
  unfold inject_Z, Qred.
  pose proof (Z.ggcd_gcd z 1) as Hg. pose proof (Z.ggcd_correct_divisors z 1) as Hd.
  destruct (Z.ggcd z 1) as [g [aa bb]]. simpl in *.
  rewrite Z.gcd_1_r in Hg. subst g. destruct Hd as [Ha Hb].
  rewrite Z.mul_1_l in Ha, Hb. by subst.
Qed.

Lemma toBigInt_whole (v : BigNumber) (z : Z) : (v == inject_Z z)%Q → toBigInt v = Ok z.
Proof.
  intros Hv. unfold toBigInt. rewrite (Qred_complete _ _ Hv), Qred_inject_Z. done.
Qed.

(** X16: a fee in the native asset emitted by the selector, whose
    metadata carries [ERG_DECIMALS], is paid by [setFee] as the safe minimum
    fee times the multiplier, without a swap. *)
Theorem emitted_native_fee_is_paid
    (env : Env) (builder : TransactionBuilder) (st : State) :
  fa_tokenId (intSelected st) = ERG_TOKEN_ID →
  fa_metadata (intSelected st) ≫= md_decimals = Some ERG_DECIMALS →
  let out := setFee env builder (emitSelected st) in
  ended out = Ok ()
  ∧ tb_feeAmount (builder_after out) = Some (SAFE_MIN_FEE_VALUE * multiplier st)
  ∧ tb_plugins (builder_after out) = tb_plugins builder
  ∧ fee_after out = emitSelected st.
Proof.
  intros Hnative Hdec out. subst out. rewrite setFee_native by done.
  unfold payFee_end, payFee.
  rewrite (toBigInt_whole _ (SAFE_MIN_FEE_VALUE * multiplier st)); [done|].
  simpl. unfold feeAmount. rewrite decide_True by done. rewrite Hdec. simpl.
  unfold nanoErgsFee, BN_MIN_ERG_FEE, bn. rewrite inject_Z_mult. field.
  apply pow10_not_0.
Qed.

Lemma pow10_pos (d : Z) : (0 < 10 ^ d)%Q.
Proof. by apply Qpower_0_lt. Qed.

Lemma Qdiv_le_pow10 (a b : Q) (d : Z) : (a <= b)%Q → (a / 10 ^ d <= b / 10 ^ d)%Q.
Proof.
  intros Hab. apply Qmult_le_compat_r; [done|].
  apply Qlt_le_weak, Qinv_lt_0_compat, pow10_pos.
Qed.

(** X17: recalculating never changes the selected asset and never sets the
    multiplier above 10.  Under a token fee at multiplier 1, with whole
    positive rate and minimum fee, it leaves a multiplier between 1 and 10,
    and the fee then meets the minimum required unless the multiplier is
    at 10. *)
Theorem recalculateMinRequired_bounds (st : State) :
  let st' := recalculateMinRequired st in
  intSelected st' = intSelected st
  ∧ (multiplier st' = multiplier st ∨ multiplier st' = 1 ∨ multiplier st' ≤ 10)
  ∧ ∀ r,
      fa_tokenId (intSelected st) ≠ ERG_TOKEN_ID →
      (fa_nanoErgsPerToken (intSelected st) == inject_Z r)%Q →
      0 < r → r ≤ 10 ^ Z.of_nat DECIMAL_PLACES →
      0 < SAFE_MIN_FEE_VALUE → SAFE_MIN_FEE_VALUE ≤ 10 ^ Z.of_nat DECIMAL_PLACES →
      0 ≤ MIN_BOX_VALUE → 0 ≤ includeMinAmountPerBox st →
      multiplier st = 1 →
      1 ≤ multiplier st' ≤ 10
      ∧ ((cachedMinRequired st' <= feeAmount st')%Q ∨ multiplier st' = 10).
Proof.
  intros st'. subst st'. unfold recalculateMinRequired.
  destruct (decide (fa_tokenId (intSelected st) = ERG_TOKEN_ID)) as [Herg|Hne].
  { simpl. split_and!.
    - by destruct (dirty st).
    - destruct (dirty st); simpl; auto.
    - done. }
  set (dec := default 0 (fa_metadata (intSelected st) ≫= md_decimals)).
  set (needed := (BN_MIN_ERG_FEE + BN_MIN_BOX_VAL * inject_Z (includeMinAmountPerBox st))%Q).
  set (st1 := set_cachedMinRequired (decimalize (getTokenUnitsFor st needed) (Some dec)) st).
  assert (feeAmount st1 = feeAmount st) as Hsame by done.
  split_and!.
  - by destruct (Qlt_bool _ _).
  - destruct (Qlt_bool _ _); simpl; [|by left]. right. right.
    destruct (Qlt_bool 10 _) eqn:E; [done|].
    unfold Qlt_bool in E. apply negb_false_iff, Qle_bool_iff in E.
    apply Qfloor_resp_le in E. exact E.
  - intros r _ Hr Hr0 Hdigits Hfee Hfee' Hbox Hk Hm.
    destruct (getTokenUnitsFor_rounds_up st BN_MIN_ERG_FEE SAFE_MIN_FEE_VALUE r)
      as [_ Hup0]; [done..|].
    destruct (Hup0 Hfee Hr0) as (u0 & Hu0 & Hlo0 & Hhi0).
    destruct (getTokenUnitsFor_rounds_up st needed
                (SAFE_MIN_FEE_VALUE + MIN_BOX_VALUE * includeMinAmountPerBox st) r)
      as [_ Hup]; [|done..|].
    { unfold needed, BN_MIN_ERG_FEE, BN_MIN_BOX_VAL, bn.
      by rewrite inject_Z_plus, inject_Z_mult. }
    destruct Hup as (U & HU & Hlo & Hhi); [nia|done|].
    assert (feeAmount st = (bn u0 * inject_Z 1 / 10 ^ dec)%Q) as Hfa.
    { unfold feeAmount. rewrite decide_False by done.
      unfold tokenUnitsFee, minTokenFee. by rewrite Hu0, Hm. }
    assert (cachedMinRequired st1 = (bn U / 10 ^ dec)%Q) as Hcm
      by (unfold st1; simpl; by rewrite HU).
    assert (0 < u0 ∧ u0 ≤ 10 ^ Z.of_nat DECIMAL_PLACES) as [Hu0pos Hu0digits] by nia.
    destruct (Qlt_bool (feeAmount st1) (cachedMinRequired st1)) eqn:Hshort.
    + apply Qlt_bool_iff in Hshort. rewrite Hsame, Hfa, Hcm in Hshort.
      assert (u0 < U) as Hlt.
      { apply Qmult_lt_r in Hshort; [|apply Qinv_lt_0_compat, pow10_pos].
        unfold bn in Hshort. rewrite <- inject_Z_mult, <- Zlt_Qlt in Hshort. lia. }
      assert (integerValue_ROUND_UP (div (cachedMinRequired st1) (feeAmount st1))
              = bn ((U + u0 - 1) / u0)) as Hm'.
      { apply round_up_div; [lia|done|done| |].
        - rewrite Hsame, Hfa. intros Hz.
          assert (0 < bn u0 * inject_Z 1 / 10 ^ dec)%Q as Hpos.
          { apply Qlt_shift_div_l; [apply pow10_pos|]. rewrite Qmult_0_l.
            unfold bn. rewrite <- inject_Z_mult. change 0%Q with (inject_Z 0).
            rewrite <- Zlt_Qlt. lia. }
          rewrite Hz in Hpos. by apply Qlt_irrefl in Hpos.
        - rewrite Hsame, Hfa, Hcm. unfold bn. field. split.
          + apply inject_Z_not_0. lia.
          + apply pow10_not_0. }
      rewrite Hm'. set (M := (U + u0 - 1) / u0) in *.
      assert (2 ≤ M ∧ U ≤ M * u0) as [HM2 HMU].
      { unfold M. pose proof (Z.div_mod (U + u0 - 1) u0 ltac:(lia)).
        pose proof (Z.mod_pos_bound (U + u0 - 1) u0 Hu0pos). nia. }
      destruct (Qlt_bool 10 (bn M)) eqn:Hcap; simpl.
      * split; [lia|by right].
      * unfold Qlt_bool in Hcap. apply negb_false_iff, Qle_bool_iff in Hcap.
        unfold bn in Hcap. change 10%Q with (inject_Z 10) in Hcap.
        rewrite <- Zle_Qle in Hcap. rewrite !Z.div_1_r.
        split; [lia|]. left.
        unfold feeAmount. simpl. rewrite decide_False by done.
        unfold tokenUnitsFee, minTokenFee. simpl.
        change (getTokenUnitsFor _ BN_MIN_ERG_FEE) with (getTokenUnitsFor st BN_MIN_ERG_FEE).
        rewrite Hu0, HU. fold dec. apply Qdiv_le_pow10.
        unfold bn. rewrite <- inject_Z_mult, <- Zle_Qle.
        rewrite Z.mul_comm. exact HMU.
    + split; [simpl; lia|]. left.
      unfold Qlt_bool in Hshort. by apply negb_false_iff, Qle_bool_iff in Hshort.
Qed.

End FeeConfigFacts.

(** * The asset pricing service *)

Section PricingFacts.
Import Pricing.
Context `{K : ErgoConstants} `{F : JsFloat}.

Lemma set_rates_last (p : option number) (l1 l2 : list (string * BigNumber))
    (k : string) (v : BigNumber) (m : gmap string AssetRate) :
  k ∉ l2.*1 →
  foldl (λ rates kv, <[kv.1 := token_rate p kv.2]> rates) m (l1 ++ (k, v) :: l2) !! k
  = Some (token_rate p v).
Proof.
  intros Hk. rewrite foldl_app. simpl.
  set (m' := foldl _ m l1). clearbody m'.
  assert (G : ∀ m0 : gmap string AssetRate, m0 !! k = Some (token_rate p v) →
            foldl (λ rates kv, <[kv.1 := token_rate p kv.2]> rates) m0 l2 !! k
            = Some (token_rate p v)).
  { induction l2 as [|[k' v'] l2 IH]; intros m0 Hm0; [exact Hm0|].
    simpl. rewrite fmap_cons, not_elem_of_cons in Hk. destruct Hk as [Hne Hk].
    apply IH; [exact Hk|]. rewrite lookup_insert_ne; [exact Hm0|].
    simpl in Hne. congruence. }
  apply G. apply lookup_insert_eq.
Qed.

Lemma set_rates_other (p : option number) (l : list (string * BigNumber))
    (k : string) (m : gmap string AssetRate) :
  k ∉ l.*1 →
  foldl (λ rates kv, <[kv.1 := token_rate p kv.2]> rates) m l !! k = m !! k.
Proof.
  revert m. induction l as [|[k' v'] l IH]; intros m Hk; [reflexivity|].
  simpl. rewrite fmap_cons, not_elem_of_cons in Hk. destruct Hk as [Hne Hk].
  rewrite IH by exact Hk. apply lookup_insert_ne. simpl in Hne. congruence.
Qed.

(** X18.  [getRates] rejects when either service rejects, and answers
    undefined exactly when the price is falsy and the token rates are
    undefined.  Otherwise each key of the token rates carries the rate of
    its last entry, the native asset included when the token rates list
    it, and apart from these keys the map holds only the native asset, at
    rate one with the price as answered. *)
Theorem getRates_entries :
  (∀ r b, getRates (Rejected r) b = Throw r)
  ∧ (∀ p r, getRates (Fulfilled p) (Rejected r) = Throw r)
  ∧ ∀ p tr,
      (getRates (Fulfilled p) (Fulfilled tr) = Ok None
       ↔ is_falsy p = true ∧ tr = None)
      ∧ ∀ rates, getRates (Fulfilled p) (Fulfilled tr) = Ok (Some rates) →
          let entries := default [] tr in
          (∀ l1 k v l2, entries = l1 ++ (k, v) :: l2 → k ∉ l2.*1 →
             rates !! k = Some (token_rate p v))
          ∧ (∀ k, k ∉ entries.*1 →
               rates !! k
               = if decide (k = ERG_TOKEN_ID) then Some {| erg := one; fiat := p |}
                 else None).
Proof.
  split; [|split].
  - intros r b. unfold getRates. destruct b; reflexivity.
  - intros p r. reflexivity.
  - intros p tr. unfold getRates. simpl. split.
    + destruct (is_falsy p) eqn:Ep; simpl.
      * destruct tr as [l|]; simpl.
        -- split; [discriminate|]. intros [_ ?]. discriminate.
        -- split; [intros _; split; reflexivity|reflexivity].
      * destruct tr as [l|]; split; try discriminate; intros [? _]; discriminate.
    + intros rates H.
      assert (Hr : rates = foldl (λ rates kv, <[kv.1 := token_rate p kv.2]> rates)
                             {[ ERG_TOKEN_ID := {| erg := one; fiat := p |} ]}
                             (default [] tr)).
      { destruct (is_falsy p && bool_decide (tr = None)) eqn:E.
        - discriminate.
        - destruct tr as [l|]; simpl; congruence. }
      subst rates. split.
      * intros l1 k v l2 -> Hk. apply set_rates_last. exact Hk.
      * intros k Hk. rewrite set_rates_other by exact Hk.
        destruct (decide (k = ERG_TOKEN_ID)) as [->|Hne].
        -- apply lookup_singleton_eq.
        -- apply lookup_singleton_ne. congruence.
Qed.

End PricingFacts.

(** * The asset information table *)

Section AssetInfoFacts.
Import AssetInfoDb.

Lemma uniqBy_from_spec {A} (key : A → string) (items : list A) (seen : gset string) :
  NoDup (key <$> uniqBy_from key seen items)
  ∧ (∀ a, a ∈ uniqBy_from key seen items → (key a ∉ seen) ∧ a ∈ items)
  ∧ (∀ k, k ∉ seen →
       head (filter (λ a, key a = k) (uniqBy_from key seen items))
       = head (filter (λ a, key a = k) items)).
Proof.
  revert seen. induction items as [|x items IH]; intros seen; simpl.
  - split; [constructor|]. split; [|reflexivity].
    intros a Ha. apply elem_of_nil in Ha. destruct Ha.
  - destruct (decide (key x ∈ seen)) as [Hin|Hout].
    + destruct (IH seen) as (Hnd & Hel & Hhd). split; [exact Hnd|]. split.
      * intros a Ha. destruct (Hel a Ha) as [? ?]. split; [assumption|].
        apply elem_of_cons. right. assumption.
      * intros k Hk. rewrite Hhd by exact Hk. rewrite filter_cons.
        destruct (decide (key x = k)) as [<-|_]; [contradiction|reflexivity].
    + destruct (IH ({[key x]} ∪ seen)) as (Hnd & Hel & Hhd). split; [|split].
      * rewrite fmap_cons. constructor; [|exact Hnd].
        intros Hx. apply list_elem_of_fmap in Hx. destruct Hx as (a & Ea & Ha).
        destruct (Hel a Ha) as [Hn _]. apply Hn. rewrite <- Ea.
        apply elem_of_union. left. apply elem_of_singleton. reflexivity.
      * intros a Ha. apply elem_of_cons in Ha. destruct Ha as [->|Ha].
        -- split; [exact Hout|]. apply elem_of_cons. left. reflexivity.
        -- destruct (Hel a Ha) as [Hn ?]. split.
           ++ intros Hs. apply Hn. apply elem_of_union. right. exact Hs.
           ++ apply elem_of_cons. right. assumption.
      * intros k Hk. rewrite !filter_cons.
        destruct (decide (key x = k)) as [E|Hne]; [reflexivity|].
        apply Hhd. intros Hs. apply elem_of_union in Hs. destruct Hs as [Hs|Hs].
        -- apply elem_of_singleton in Hs. congruence.
        -- contradiction.
Qed.

Lemma bulkAdd_Throw (l : list IAssetInfo) (r : string) :
  foldl (λ acc a,
           t ← acc;
           match t !! ai_id a with
           | Some _ => Throw bulkError
           | None => Ok (<[ai_id a := a]> t)
           end) (Throw r : Result (gmap string IAssetInfo)) l = Throw r.
Proof. induction l as [|a l IH]; [reflexivity|]. simpl. exact IH. Qed.

Lemma bulkAdd_fresh (l : list IAssetInfo) (t : gmap string IAssetInfo) :
  NoDup (ai_id <$> l) →
  (∀ a, a ∈ l → t !! ai_id a = None) →
  ∃ t', bulkAdd l t = Ok t'
        ∧ ∀ k, t' !! k = match t !! k with
                         | Some a => Some a
                         | None => head (filter (λ a, ai_id a = k) l)
                         end.
Proof.
  unfold bulkAdd. revert t. induction l as [|a l IH]; intros t Hnd Hfresh.
  - exists t. split; [reflexivity|]. intros k. simpl. destruct (t !! k); reflexivity.
  - rewrite fmap_cons in Hnd. apply NoDup_cons in Hnd. destruct Hnd as [Hna Hnd].
    simpl. rewrite (Hfresh a) by (apply elem_of_cons; left; reflexivity).
    destruct (IH (<[ai_id a := a]> t) Hnd) as (t' & Ht' & Hl).
    { intros b Hb. rewrite lookup_insert_ne.
      - apply Hfresh. apply elem_of_cons. right. exact Hb.
      - intros E. apply Hna. rewrite E. apply list_elem_of_fmap. eauto. }
    exists t'. split; [exact Ht'|]. intros k. rewrite Hl, filter_cons.
    destruct (decide (ai_id a = k)) as [<-|Hne].
    + rewrite lookup_insert_eq.
      rewrite (Hfresh a) by (apply elem_of_cons; left; reflexivity). reflexivity.
    + rewrite lookup_insert_ne by exact Hne. reflexivity.
Qed.

Lemma head_filter_filter {A} (P Q : A → Prop) `{∀ x, Decision (P x)} `{∀ x, Decision (Q x)}
    (l : list A) :
  (∀ x, x ∈ l → P x → Q x) →
  head (filter P (filter Q l)) = head (filter P l).
Proof.
  induction l as [|x l IH]; intros HPQ; [reflexivity|].
  assert (IH' : head (filter P (filter Q l)) = head (filter P l)).
  { apply IH. intros y Hy. apply HPQ. apply elem_of_cons. right. exact Hy. }
  rewrite (filter_cons Q). destruct (decide (Q x)) as [q|nq].
  - rewrite !filter_cons. destruct (decide (P x)); [reflexivity|exact IH'].
  - rewrite IH', filter_cons. destruct (decide (P x)) as [px|]; [|reflexivity].
    exfalso. apply nq. apply HPQ; [apply elem_of_cons; left; reflexivity|exact px].
Qed.

(** X19.  [addIfNotExists] always fulfils: it never offers the table a key
    that is stored or a key twice.  Afterwards every stored key keeps the
    record it had, and a key that was not stored holds the first of the
    given records with that id, if there is one. *)
Theorem addIfNotExists_keeps_and_fills (table : gmap string IAssetInfo)
    (assets : list IAssetInfo) :
  ∃ table', addIfNotExists table assets = Ok table'
    ∧ ∀ k, get table' k = match get table k with
                          | Some a => Some a
                          | None => head (filter (λ a, ai_id a = k) assets)
                          end.
Proof.
  unfold addIfNotExists, get. destruct assets as [|a0 assets0].
  - exists table. split; [reflexivity|]. intros k. destruct (table !! k); reflexivity.
  - set (assets := a0 :: assets0).
    destruct (uniqBy_from_spec ai_id assets ∅) as (Hnd & Hel & Hhd).
    fold (uniqBy assets ai_id) in Hnd, Hel, Hhd.
    set (u := uniqBy assets ai_id) in *. clearbody u.
    set (uncommited :=
           difference (ai_id <$> u) (filter (λ k, is_Some (table !! k)) (ai_id <$> u))).
    assert (Hun : ∀ a, a ∈ u → (ai_id a ∈ uncommited ↔ table !! ai_id a = None)).
    { intros a Ha. unfold uncommited, difference. rewrite list_elem_of_filter.
      rewrite list_elem_of_filter. split.
      - intros [Hn _]. destruct (table !! ai_id a) eqn:E; [|reflexivity].
        exfalso. apply Hn. split; [eauto|]. apply list_elem_of_fmap. eauto.
      - intros E. split.
        + intros [[x Hx] _]. congruence.
        + apply list_elem_of_fmap. eauto. }
    assert (Hfill : ∀ k, table !! k = None →
              head (filter (λ a, ai_id a = k) (filter (λ a, ai_id a ∈ uncommited) u))
              = head (filter (λ a, ai_id a = k) assets)).
    { intros k Hk. rewrite <- Hhd by apply not_elem_of_empty.
      apply head_filter_filter. intros x Hx E. apply Hun; [exact Hx|]. congruence. }
    destruct (bulkAdd_fresh (filter (λ a, ai_id a ∈ uncommited) u) table)
      as (t' & Ht' & Hl).
    { eapply sublist_NoDup; [exact Hnd|]. apply fmap_sublist, sublist_filter. }
    { intros a Ha. apply list_elem_of_filter in Ha. destruct Ha as [Hin Ha].
      apply Hun; assumption. }
    destruct uncommited as [|k0 rest] eqn:Eun.
    + exists table. split; [reflexivity|]. intros k.
      destruct (table !! k) eqn:Ek; [reflexivity|].
      rewrite <- (Hfill k Ek).
      assert (E : filter (λ a, ai_id a ∈ []) u = []).
      { clear. induction u as [|x u IH]; [reflexivity|].
        rewrite filter_cons. destruct (decide (ai_id x ∈ [])) as [Hx|_]; [|exact IH].
        apply elem_of_nil in Hx. destruct Hx. }
      rewrite E. reflexivity.
    + exists t'. split; [exact Ht'|]. intros k. rewrite Hl.
      destruct (table !! k) eqn:Ek; [reflexivity|]. apply Hfill. exact Ek.
Qed.

Lemma head_filter_infos `{K : ErgoConstants} (f : DbMore.IDbAsset → IAssetInfo)
    (assets : list DbMore.IDbAsset) (k : string) :
  (∀ a, ai_id (f a) = DbMore.as_tokenId a) →
  head (filter (λ i, ai_id i = k)
          (f <$> filter (λ a, DbMore.as_tokenId a ≠ ERG_TOKEN_ID) assets))
  = if decide (k = ERG_TOKEN_ID) then None
    else f <$> head (filter (λ a, DbMore.as_tokenId a = k) assets).
Proof.
  intros Hf. induction assets as [|a assets IH].
  - simpl. destruct (decide (k = ERG_TOKEN_ID)); reflexivity.
  - rewrite (filter_cons (λ a, DbMore.as_tokenId a ≠ ERG_TOKEN_ID)).
    rewrite (filter_cons (λ a, DbMore.as_tokenId a = k)).
    destruct (decide (DbMore.as_tokenId a ≠ ERG_TOKEN_ID)) as [Hne|He].
    + rewrite fmap_cons, filter_cons, Hf.
      destruct (decide (DbMore.as_tokenId a = k)) as [E|_]; [|exact IH].
      simpl. destruct (decide (k = ERG_TOKEN_ID)); [congruence|reflexivity].
    + rewrite IH. destruct (decide (DbMore.as_tokenId a = k)) as [E|_]; [|reflexivity].
      destruct (decide (k = ERG_TOKEN_ID)) as [_|Hk]; [reflexivity|].
      exfalso. apply He. congruence.
Qed.

(** X20.  The upgrade to version 6, run on the empty asset information
    table it has just created, always succeeds.  It leaves no record for
    the native asset, and for every other token id the name and decimals
    of the first asset row with that id, with an empty minting box id. *)
Theorem upgrade6_fills_asset_info `{K : ErgoConstants} (assets : list DbMore.IDbAsset) :
  ∃ table, upgrade6 assets ∅ = Ok table
    ∧ ∀ k, get table k
           = if decide (k = ERG_TOKEN_ID) then None
             else (λ a, {| ai_id := DbMore.as_tokenId a;
                           ai_mintingBoxId := EmptyString;
                           ai_decimals := DbMore.as_decimals a;
                           ai_name := DbMore.as_name a |})
                    <$> head (filter (λ a, DbMore.as_tokenId a = k) assets).
Proof.
  unfold upgrade6, get. destruct assets as [|a0 assets0].
  - exists ∅. split; [reflexivity|]. intros k. rewrite lookup_empty.
    destruct (decide (k = ERG_TOKEN_ID)); reflexivity.
  - set (assets := a0 :: assets0).
    set (f := λ a, {| ai_id := DbMore.as_tokenId a;
                      ai_mintingBoxId := EmptyString;
                      ai_decimals := DbMore.as_decimals a;
                      ai_name := DbMore.as_name a |}).
    set (l := f <$> filter (λ a, DbMore.as_tokenId a ≠ ERG_TOKEN_ID) assets).
    destruct (uniqBy_from_spec ai_id l ∅) as (Hnd & _ & Hhd).
    destruct (bulkAdd_fresh (uniqBy l ai_id) ∅ Hnd) as (t & Ht & Hl).
    { intros a _. apply lookup_empty. }
    exists t. split; [exact Ht|]. intros k. rewrite Hl, lookup_empty.
    unfold uniqBy. rewrite Hhd by apply not_elem_of_empty.
    apply head_filter_infos. reflexivity.
Qed.

End AssetInfoFacts.
